(** * Knowledge-base tools (knowledge_tools.py): chunking, embedding, indexing

    A shallow embedding of [DocumentChunker], [EmbeddingGenerator] and the
    three tool functions [index_document], [search_knowledge_base] and
    [get_indexed_documents], followed by the properties established about
    them.  Python integers are [Z], Python strings are lists of Unicode code
    points, dictionaries with a fixed key set are records, and every call
    that leaves the module (file system, MarkItDown, the embedding service,
    LanceDB) is an event answered by a handler. *)

From Stdlib Require Import String Ascii DecimalString.
From Stdlib Require Import ZArith List Lia Bool.
From Stdlib Require Import Floats.SpecFloat.
Import ListNotations.

Local Open Scope Z_scope.

(** ** Python strings *)

Module PyStr.

(** A [str] is a sequence of code points. *)
Definition str : Type := list N.

Definition len (s : str) : Z := Z.of_nat (length s).

(** The characters [str.strip()] removes: those for which
    [str.isspace()] holds (bidirectional class WS, B or S, or general
    category Zs). *)
Definition isspace (c : N) : bool :=
  ((9 <=? c) && (c <=? 13) || (28 <=? c) && (c <=? 32)
   || (c =? 133) || (c =? 160) || (c =? 5760)
   || (8192 <=? c) && (c <=? 8202)
   || (c =? 8232) || (c =? 8233) || (c =? 8239) || (c =? 8287)
   || (c =? 12288))%N.

Fixpoint lstrip (s : str) : str :=
  match s with
  | c :: s' => if isspace c then lstrip s' else s
  | [] => []
  end.

Definition rstrip (s : str) : str := rev (lstrip (rev s)).

Definition strip (s : str) : str := rstrip (lstrip s).

(** Bound of a slice [s[i:j]] on a sequence of length [n]: a negative
    index counts from the end, and the result is clipped to [0..n]. *)
Definition slice_bound (n i : Z) : Z :=
  if i <? 0 then Z.max 0 (i + n) else Z.min i n.

(** [s[start:stop]] *)
Definition slice (s : str) (start stop : Z) : str :=
  let lo := slice_bound (len s) start in
  let hi := slice_bound (len s) stop in
  firstn (Z.to_nat (hi - lo)) (skipn (Z.to_nat lo) s).

(** A string literal of the source (ASCII only). *)
Definition lit (s : string) : str := map N_of_ascii (list_ascii_of_string s).

(** [str(n)] for an integer [n]. *)
Definition of_int (z : Z) : str := lit (NilZero.string_of_int (Z.to_int z)).

(** [sep.join(parts)] *)
Fixpoint join (sep : str) (parts : list str) : str :=
  match parts with
  | [] => []
  | [p] => p
  | p :: rest => p ++ sep ++ join sep rest
  end.

Definition eqb (a b : str) : bool :=
  if list_eq_dec N.eq_dec a b then true else false.

(** [s.split(sep)] for a one-character separator. *)
Fixpoint split_on (sep : N) (s : str) : list str :=
  match s with
  | [] => [[]]
  | c :: s' =>
      if (c =? sep)%N then [] :: split_on sep s'
      else match split_on sep s' with
           | p :: ps => (c :: p) :: ps
           | [] => [[c]]
           end
  end.

End PyStr.

Abbreviation str := PyStr.str.
Abbreviation len := PyStr.len.
Abbreviation lit := PyStr.lit.

(** ** DocumentChunker *)

(** Configuration constants of the module. *)
Definition KNOWLEDGE_DB_PATH : str := lit "knowledge_db".
Definition EMBEDDING_MODEL : str := lit "gemini-embedding-001".
Definition EMBEDDING_DIMENSION : Z := 768.
Definition CHUNK_SIZE_CHARS : Z := 2000.
Definition CHUNK_OVERLAP_CHARS : Z := 200.
Definition TASK_TYPE_DOCUMENT : str := lit "RETRIEVAL_DOCUMENT".
Definition TASK_TYPE_QUERY : str := lit "RETRIEVAL_QUERY".

Record DocumentChunker : Type := {
  chunk_size : Z;
  overlap : Z
}.

(** [DocumentChunker()] with the default arguments of [__init__]. *)
Definition DocumentChunker_default : DocumentChunker :=
  {| chunk_size := CHUNK_SIZE_CHARS; overlap := CHUNK_OVERLAP_CHARS |}.

(** The dictionary appended to [chunks]. *)
Record Chunk : Type := {
  text : str;
  source : str;
  chunk_index : Z;
  char_start : Z;
  char_end : Z
}.

(** The local variables of [chunk_text] that live across iterations. *)
Record LoopState : Type := {
  start : Z;
  chunk_idx : Z;
  chunks : list Chunk
}.

Definition loop_init : LoopState :=
  {| start := 0; chunk_idx := 0; chunks := [] |}.

Section Chunking.

Variable self : DocumentChunker.
Variable txt : str.
Variable src : str.

(** One evaluation of the [while] test followed by the loop body:
    [inl] is the state at the next test, [inr] the list returned once the
    loop is left (test false, or [break]). *)
Definition chunk_step (st : LoopState) : LoopState + list Chunk :=
  if start st <? len txt then
    let end_ := start st + chunk_size self in
    let chunk_text := PyStr.slice txt (start st) end_ in
    if len (PyStr.strip chunk_text) <? 100 then inr (chunks st)
    else
      inl {| start := start st + (chunk_size self - overlap self);
             chunk_idx := chunk_idx st + 1;
             chunks := chunks st ++
               [ {| text := PyStr.strip chunk_text;
                    source := src;
                    chunk_index := chunk_idx st;
                    char_start := start st;
                    char_end := end_ |} ] |}
  else inr (chunks st).

(** At most [n] iterations from [st]. *)
Fixpoint chunk_run (n : nat) (st : LoopState) : LoopState + list Chunk :=
  match n with
  | O => inl st
  | S n' =>
      match chunk_step st with
      | inl st' => chunk_run n' st'
      | inr l => inr l
      end
  end.

(** [self.chunk_text(text, source)], with [fuel] bounding the number of
    loop tests: [None] when the loop is still running after [fuel]
    iterations. *)
Definition chunk_text (fuel : nat) : option (list Chunk) :=
  match chunk_run fuel loop_init with
  | inr l => Some l
  | inl _ => None
  end.

(** *** The windows of the scan *)

Definition stride : Z := chunk_size self - overlap self.

(** The chunk recorded by iteration number [k] (counting from 0). *)
Definition window (k : nat) : Chunk :=
  let s := Z.of_nat k * stride in
  {| text := PyStr.strip (PyStr.slice txt s (s + chunk_size self));
     source := src;
     chunk_index := Z.of_nat k;
     char_start := s;
     char_end := s + chunk_size self |}.

(** Iteration [k] appends its chunk: the offset is inside the text and
    the trimmed window has at least 100 characters. *)
Definition emits (k : nat) : bool :=
  let s := Z.of_nat k * stride in
  (s <? len txt) && negb (len (PyStr.strip (PyStr.slice txt s (s + chunk_size self))) <? 100).

Definition windows (n : nat) : list Chunk := map window (seq 0 n).

(** The loop state at the test that follows [k] completed iterations. *)
Definition state_after (k : nat) : LoopState :=
  {| start := Z.of_nat k * stride;
     chunk_idx := Z.of_nat k;
     chunks := windows k |}.

End Chunking.

(** The list [chunk_text] returns under the class's precondition
    [overlap < chunk_size], where [length txt + 1] loop tests always suffice
    (lemma [chunk_text_enough_fuel]). *)
Definition chunk_text_total (self : DocumentChunker) (txt src : str) : list Chunk :=
  match chunk_text self txt src (S (length txt)) with
  | Some l => l
  | None => []
  end.

(** ** Calls that leave the module *)

(** An instance of [Exception]; [str(e)] is its message. *)
Inductive PyException : Type :=
| Exception (msg : str).

Definition exc_str (e : PyException) : str :=
  match e with Exception msg => msg end.

(** An embedding: a list of floats. *)
Definition Vector : Type := list spec_float.

(** A row of the ["documents"] table.  [search_knowledge_base] reads
    ['chunk_index'] with [.get], so that key may be absent. *)
Record Row : Type := {
  row_text : str;
  row_vector : Vector;
  row_source : str;
  row_chunk_index : option Z;
  row_char_start : Z;
  row_char_end : Z
}.

(** The external calls the three tools make, indexed by what they
    return. *)
Inductive call : Type -> Type :=
| path_exists (p : str) : call bool
    (* Path(p).exists() *)
| path_absolute (p : str) : call str
    (* str(Path(p).absolute()) *)
| markitdown_convert (p : str) : call (option str)
    (* MarkItDown().convert(p).text_content *)
| embed_content (model content task_type : str) (output_dimensionality : Z) : call Vector
    (* genai.embed_content(...)['embedding'] *)
| lancedb_connect (uri : str) : call unit
    (* lancedb.connect(uri) *)
| open_table (db name : str) : call unit
    (* db.open_table(name) *)
| table_add (db name : str) (data : list Row) : call unit
    (* table.add(data) *)
| create_table (db name : str) (data : list Row) : call unit
    (* db.create_table(name, data=data) *)
| table_search (db name : str) (query : Vector) (limit : Z) : call (list Row)
    (* table.search(query).limit(limit).to_list() *)
| table_to_pandas (db name : str) : call (list Row).
    (* table.to_pandas() *)

(** A computation that returns, raises, or makes an external call and
    goes on with its outcome: the value, or the exception it raised. *)
Inductive prog (A : Type) : Type :=
| Ret (a : A)
| Raise (e : PyException)
| Call {X : Type} (c : call X) (k : PyException + X -> prog A).

Arguments Ret {A} a.
Arguments Raise {A} e.
Arguments Call {A X} c k.

Fixpoint bind {A B : Type} (p : prog A) (f : A -> prog B) : prog B :=
  match p with
  | Ret a => f a
  | Raise e => Raise e
  | Call c k => Call c (fun r => bind (k r) f)
  end.

Declare Scope prog_scope.
Delimit Scope prog_scope with prog.
Notation "x <- p ;; q" := (bind p (fun x => q))
  (at level 61, p at next level, right associativity) : prog_scope.
Notation "p ;; q" := (bind p (fun _ => q))
  (at level 61, right associativity) : prog_scope.
Local Open Scope prog_scope.

(** A call outside any [try]: its exception propagates. *)
Definition perform {X : Type} (c : call X) : prog X :=
  Call c (fun r => match r with inl e => Raise e | inr x => Ret x end).

(** A call whose exception is handed to the code that follows. *)
Definition attempt {X : Type} (c : call X) : prog (PyException + X) :=
  Call c (fun r => Ret r).

(** [try: body  except Exception as e: handler e] *)
Fixpoint try_except {A : Type} (body : prog A) (handler : PyException -> prog A) : prog A :=
  match body with
  | Ret a => Ret a
  | Raise e => handler e
  | Call c k => Call c (fun r => try_except (k r) handler)
  end.

(** *** Running a computation against an environment *)

(** An environment with states [W] answers each call and moves on. *)
Definition handler (W : Type) : Type :=
  forall X : Type, call X -> W -> W * (PyException + X).

(** One answered call. *)
Record Entry : Type := mkEntry {
  entry_type : Type;
  entry_call : call entry_type;
  entry_reply : PyException + entry_type
}.

Record Outcome (W A : Type) : Type := mkOutcome {
  final : W;
  trace : list Entry;
  result : PyException + A
}.

Arguments mkOutcome {W A} final trace result.
Arguments final {W A} o.
Arguments trace {W A} o.
Arguments result {W A} o.

Fixpoint exec {W A : Type} (h : handler W) (p : prog A) (w : W) (log : list Entry) : Outcome W A :=
  match p with
  | Ret a => mkOutcome w log (inr a)
  | Raise e => mkOutcome w log (inl e)
  | Call c k =>
      let '(w', r) := h _ c w in
      exec h (k r) w' (log ++ [mkEntry _ c r])
  end.

Definition run {W A : Type} (h : handler W) (p : prog A) (w : W) : Outcome W A :=
  exec h p w [].

(** *** Runs in sequence *)

(** Applying a function to what a run returned. *)
Definition map_result {W A B : Type} (f : A -> B) (o : Outcome W A) : Outcome W B :=
  mkOutcome (final o) (trace o)
    (match result o with inl e => inl e | inr a => inr (f a) end).

(** How a run goes on after a first part [o]: with [f] on the value it
    returned, or not at all when it raised. *)
Definition and_then {W A B : Type} (h : handler W) (o : Outcome W A) (f : A -> prog B)
    : Outcome W B :=
  match result o with
  | inr a => exec h (f a) (final o) (trace o)
  | inl e => mkOutcome (final o) (trace o) (inl e)
  end.

(** The same for an [except] clause: [hd] runs when the first part
    raised. *)
Definition or_else {W A : Type} (h : handler W) (o : Outcome W A)
    (hd : PyException -> prog A) : Outcome W A :=
  match result o with
  | inr a => o
  | inl e => exec h (hd e) (final o) (trace o)
  end.

(** Calls addressed to LanceDB, and those among them that write. *)
Definition is_store_call {X : Type} (c : call X) : bool :=
  match c with
  | lancedb_connect _ | open_table _ _ | table_add _ _ _ | create_table _ _ _
  | table_search _ _ _ _ | table_to_pandas _ _ => true
  | _ => false
  end.

Definition is_store_write {X : Type} (c : call X) : bool :=
  match c with
  | table_add _ _ _ | create_table _ _ _ => true
  | _ => false
  end.

Definition no_store_call (t : list Entry) : Prop :=
  Forall (fun e => is_store_call (entry_call e) = false) t.

Definition no_store_write (t : list Entry) : Prop :=
  Forall (fun e => is_store_write (entry_call e) = false) t.

(** ** EmbeddingGenerator *)

Record EmbeddingGenerator : Type := {
  model : str;
  dimension : Z
}.

Definition EmbeddingGenerator_default : EmbeddingGenerator :=
  {| model := EMBEDDING_MODEL; dimension := EMBEDDING_DIMENSION |}.

Definition generate_embedding (self : EmbeddingGenerator) (txt task_type : str) : prog Vector :=
  perform (embed_content (model self) txt task_type (dimension self)).

(** The [for] loop of [generate_batch_embeddings], with the list
    [embeddings] built so far. *)
Fixpoint batch_loop (self : EmbeddingGenerator) (task_type : str)
    (texts : list str) (embeddings : list Vector) : prog (list Vector) :=
  match texts with
  | [] => Ret embeddings
  | t :: rest =>
      e <- generate_embedding self t task_type ;;
      batch_loop self task_type rest (embeddings ++ [e])
  end.

Definition generate_batch_embeddings (self : EmbeddingGenerator)
    (texts : list str) (task_type : str) : prog (list Vector) :=
  batch_loop self task_type texts [].

(** Calling the single-text function on each text in turn and collecting
    the results: what the batch function is compared with. *)
Fixpoint embed_each (self : EmbeddingGenerator) (task_type : str)
    (texts : list str) : prog (list Vector) :=
  match texts with
  | [] => Ret []
  | t :: rest =>
      e <- generate_embedding self t task_type ;;
      es <- embed_each self task_type rest ;;
      Ret (e :: es)
  end.

(** ** Tool functions *)

Definition newline : str := [10%N].

(** [Path(p).name] (POSIX flavour): the last component of the path, where
    empty components and ["."] are dropped; [""] when none is left. *)
Definition path_name (p : str) : str :=
  last (filter (fun part => negb (PyStr.eqb part []) && negb (PyStr.eqb part (lit ".")))
               (PyStr.split_on 47%N p)) [].

(** [not text_content or len(text_content.strip()) < 50] *)
Definition no_meaningful_text (text_content : option str) : bool :=
  match text_content with
  | None => true
  | Some t =>
      match t with
      | [] => true
      | _ => len (PyStr.strip t) <? 50
      end
  end.

(** The dictionary built for one [(chunk, embedding)] pair. *)
Definition db_record (ce : Chunk * Vector) : Row :=
  let (chunk, embedding) := ce in
  {| row_text := text chunk;
     row_vector := embedding;
     row_source := source chunk;
     row_chunk_index := Some (chunk_index chunk);
     row_char_start := char_start chunk;
     row_char_end := char_end chunk |}.

Definition DOCUMENTS : str := lit "documents".

Definition msg_file_missing (file_path : str) : str :=
  lit "Error: File " ++ file_path ++ lit " does not exist".

Definition msg_no_text (file_path : str) : str :=
  lit "Error: Could not extract meaningful text from " ++ file_path.

Definition msg_no_chunks (file_path : str) : str :=
  lit "Error: No chunks created from " ++ file_path.

Definition msg_indexed (file_path : str) (n : Z) : str :=
  lit "Successfully indexed " ++ path_name file_path ++ lit ": "
    ++ PyStr.of_int n ++ lit " chunks created and embedded".

Definition msg_index_error (e : PyException) : str :=
  lit "Error indexing document: " ++ exc_str e.

(** The statements of [index_document] from "Store in LanceDB" on. *)
Definition store_records (data_for_db : list Row) : prog unit :=
  perform (lancedb_connect KNOWLEDGE_DB_PATH) ;;
  try_except
    (perform (open_table KNOWLEDGE_DB_PATH DOCUMENTS) ;;
     perform (table_add KNOWLEDGE_DB_PATH DOCUMENTS data_for_db))
    (fun _ => perform (create_table KNOWLEDGE_DB_PATH DOCUMENTS data_for_db)).

Definition index_document (file_path : str) : prog str :=
  try_except
    (found <- perform (path_exists file_path) ;;
     if negb found then Ret (msg_file_missing file_path)
     else
       abs_path <- perform (path_absolute file_path) ;;
       text_content <- perform (markitdown_convert abs_path) ;;
       if no_meaningful_text text_content then Ret (msg_no_text file_path)
       else
         src <- perform (path_absolute file_path) ;;
         let chunks :=
           chunk_text_total DocumentChunker_default
             (match text_content with Some t => t | None => [] end) src in
         match chunks with
         | [] => Ret (msg_no_chunks file_path)
         | _ =>
             embeddings <- generate_batch_embeddings EmbeddingGenerator_default
                             (map text chunks) TASK_TYPE_DOCUMENT ;;
             let data_for_db := map db_record (combine chunks embeddings) in
             store_records data_for_db ;;
             Ret (msg_indexed file_path (Z.of_nat (length chunks)))
         end)
    (fun e => Ret (msg_index_error e)).

Definition msg_kb_not_found : str :=
  lit "Knowledge base not found. Please index some documents first using the index_document tool.".

Definition msg_nothing_indexed : str :=
  lit "No documents have been indexed yet. Use index_document first.".

Definition msg_no_match (query : str) : str :=
  lit "No relevant information found for query: '" ++ query ++ lit "'".

Definition msg_search_error (e : PyException) : str :=
  lit "Error searching knowledge base: " ++ exc_str e.

(** The entries one result adds to [output]; [i] is its rank, from 1. *)
Definition result_lines (i : Z) (r : Row) : list str :=
  let chunk_idx :=
    match row_chunk_index r with
    | Some n => PyStr.of_int n
    | None => lit "?"
    end in
  [ newline ++ lit "--- Result " ++ PyStr.of_int i ++ lit " (from "
      ++ path_name (row_source r) ++ lit ", chunk " ++ chunk_idx ++ lit ") ---";
    PyStr.slice (row_text r) 0 500 ]
  ++ (if 500 <? len (row_text r) then [lit "... (truncated)"] else []).

(** The [for i, result in enumerate(results, 1)] loop. *)
Fixpoint results_lines (i : Z) (results : list Row) : list str :=
  match results with
  | [] => []
  | r :: rest => result_lines i r ++ results_lines (i + 1) rest
  end.

Definition format_results (query : str) (results : list Row) : str :=
  PyStr.join newline
    ((lit "Found " ++ PyStr.of_int (Z.of_nat (length results))
        ++ lit " relevant chunks for '" ++ query ++ lit "':" ++ newline)
     :: results_lines 1 results).

Definition search_knowledge_base (query : str) (num_results : Z) : prog str :=
  try_except
    (found <- perform (path_exists KNOWLEDGE_DB_PATH) ;;
     if negb found then Ret msg_kb_not_found
     else
       query_embedding <- generate_embedding EmbeddingGenerator_default query TASK_TYPE_QUERY ;;
       perform (lancedb_connect KNOWLEDGE_DB_PATH) ;;
       table <- attempt (open_table KNOWLEDGE_DB_PATH DOCUMENTS) ;;
       match table with
       | inl _ => Ret msg_nothing_indexed
       | inr _ =>
           results <- perform (table_search KNOWLEDGE_DB_PATH DOCUMENTS query_embedding num_results) ;;
           match results with
           | [] => Ret (msg_no_match query)
           | _ => Ret (format_results query results)
           end
       end)
    (fun e => Ret (msg_search_error e)).

Definition msg_kb_empty : str :=
  lit "Knowledge base is empty (no documents indexed yet)".

Definition msg_access_error (e : PyException) : str :=
  lit "Error accessing knowledge base: " ++ exc_str e.

(** [all_data['source'].unique()]: the distinct sources, each at its first
    occurrence. *)
Fixpoint unique (seen : list str) (sources : list str) : list str :=
  match sources with
  | [] => []
  | s :: rest =>
      if existsb (PyStr.eqb s) seen then unique seen rest
      else s :: unique (s :: seen) rest
  end.

(** [len(all_data[all_data['source'] == source])] *)
Definition doc_chunks (all_data : list Row) (source : str) : Z :=
  Z.of_nat (length (filter (fun r => PyStr.eqb (row_source r) source) all_data)).

(** The line reported for one source. *)
Definition source_line (all_data : list Row) (source : str) : str :=
  [32%N; 32%N; 8226%N; 32%N] ++ path_name source ++ lit " ("
    ++ PyStr.of_int (doc_chunks all_data source) ++ lit " chunks)".

Definition summary_lines (all_data : list Row) : list str :=
  let sources := unique [] (map row_source all_data) in
  [ lit "Knowledge Base Statistics:";
    lit "- Total chunks: " ++ PyStr.of_int (Z.of_nat (length all_data));
    lit "- Indexed documents: " ++ PyStr.of_int (Z.of_nat (length sources));
    newline ++ lit "Documents:" ]
  ++ map (source_line all_data) sources.

Definition get_indexed_documents : prog str :=
  try_except
    (found <- perform (path_exists KNOWLEDGE_DB_PATH) ;;
     if negb found then Ret msg_kb_empty
     else
       perform (lancedb_connect KNOWLEDGE_DB_PATH) ;;
       try_except
         (perform (open_table KNOWLEDGE_DB_PATH DOCUMENTS) ;;
          all_data <- perform (table_to_pandas KNOWLEDGE_DB_PATH DOCUMENTS) ;;
          Ret (PyStr.join newline (summary_lines all_data)))
         (fun _ => Ret msg_kb_empty))
    (fun e => Ret (msg_access_error e)).

(** ** A reference environment *)

(** Modelled from the spec: the vector store (LanceDB) and the other
    collaborators are libraries outside the repository.  The store follows
    the contract of the design (sections 4.3 and 6): one collection
    ["documents"] at one location, absent until the first write creates it,
    grown by appending; opening it fails while it is absent and creating it
    fails once it exists. *)
Inductive Store : Type :=
| NoDirectory                  (* nothing at KNOWLEDGE_DB_PATH *)
| NoTable                      (* the directory, without the collection *)
| Table (rows : list Row).     (* the collection and its rows, oldest first *)

(** Conversion, embedding and ranking are arbitrary functions carried by
    the environment; only the store changes. *)
Record World : Type := {
  fs_exists : str -> bool;
  fs_absolute : str -> str;
  md_text : str -> PyException + option str;
  embedding_of : str -> str -> str -> Z -> PyException + Vector;
  nearest : list Row -> Vector -> Z -> list Row;
  store : Store
}.

Definition set_store (w : World) (s : Store) : World :=
  {| fs_exists := fs_exists w;
     fs_absolute := fs_absolute w;
     md_text := md_text w;
     embedding_of := embedding_of w;
     nearest := nearest w;
     store := s |}.

Definition stored_rows (w : World) : list Row :=
  match store w with
  | Table rows => rows
  | _ => []
  end.

Definition is_documents (db name : str) : bool :=
  PyStr.eqb db KNOWLEDGE_DB_PATH && PyStr.eqb name DOCUMENTS.

Definition no_table : PyException := Exception (lit "Table 'documents' was not found").
Definition table_exists : PyException := Exception (lit "Table 'documents' already exists").

(** [Path(p).exists()]: the knowledge-base directory exists once the store
    has one; any other path is looked up in the file system. *)
Definition world_path_exists (w : World) (p : str) : bool :=
  if PyStr.eqb p KNOWLEDGE_DB_PATH
  then match store w with NoDirectory => false | _ => true end
  else fs_exists w p.

(** Modelled from the spec: how the reference environment answers each
    call.  Conversion and embedding answer as the environment's functions
    say; connecting always succeeds and creates nothing ("first write
    materializes storage"); the table operations follow the store contract
    above. *)
Definition world_handler : handler World :=
  fun X c w =>
    match c in call X return World * (PyException + X) with
    | path_exists p => (w, inr (world_path_exists w p))
    | path_absolute p => (w, inr (fs_absolute w p))
    | markitdown_convert p => (w, md_text w p)
    | embed_content m t task d => (w, embedding_of w m t task d)
    | lancedb_connect _ => (w, inr tt)
    | open_table db name =>
        match store w with
        | Table _ => (w, if is_documents db name then inr tt else inl no_table)
        | _ => (w, inl no_table)
        end
    | table_add db name data =>
        match store w with
        | Table rows =>
            if is_documents db name
            then (set_store w (Table (rows ++ data)), inr tt)
            else (w, inl no_table)
        | _ => (w, inl no_table)
        end
    | create_table db name data =>
        match store w with
        | Table _ => (w, inl table_exists)
        | _ =>
            if is_documents db name
            then (set_store w (Table data), inr tt)
            else (w, inl no_table)
        end
    | table_search db name q k =>
        match store w with
        | Table rows =>
            (w, if is_documents db name then inr (nearest w rows q k) else inl no_table)
        | _ => (w, inl no_table)
        end
    | table_to_pandas db name =>
        match store w with
        | Table rows => (w, if is_documents db name then inr rows else inl no_table)
        | _ => (w, inl no_table)
        end
    end.

(** A result string that reports an error: the three [except] branches
    and the early error returns all start with ["Error"]. *)
Definition is_error_message (s : str) : bool :=
  PyStr.eqb (firstn 5 s) (lit "Error").

(** What an answered call tells about the ingestion steps that come
    before the store is touched: the file is missing, the conversion gave
    no usable text or text that yields no chunk, or a call other than a
    store call raised. *)
Definition pre_store_failure (e : Entry) : bool :=
  match e with
  | mkEntry _ c r =>
      match c in call X return PyException + X -> bool with
      | path_exists _ =>
          fun r => match r with inr true => false | _ => true end
      | path_absolute _ =>
          fun r => match r with inl _ => true | inr _ => false end
      | markitdown_convert _ =>
          fun r =>
            match r with
            | inl _ => true
            | inr t =>
                no_meaningful_text t
                || match chunk_text_total DocumentChunker_default
                           (match t with Some s => s | None => [] end) [] with
                   | [] => true
                   | _ => false
                   end
            end
      | embed_content _ _ _ _ =>
          fun r => match r with inl _ => true | inr _ => false end
      | _ => fun _ => false
      end r
  end.



(** A small environment to run the tools in: one convertible file of 150
    letters, a constant embedding, a store that ranks by insertion order,
    and nothing indexed yet. *)
Definition sample_world : World :=
  {| fs_exists := fun p => PyStr.eqb p (lit "notes.txt");
     fs_absolute := fun p => lit "/home/user/" ++ p;
     md_text := fun _ => inr (Some (repeat 97%N 150));
     embedding_of := fun _ _ _ _ => inr [S754_zero false];
     nearest := fun rows _ k => firstn (Z.to_nat k) rows;
     store := NoDirectory |}.

(** The row that ingesting the sample file writes. *)
Definition sample_row : Row :=
  {| row_text := repeat 97%N 150;
     row_vector := [S754_zero false];
     row_source := lit "/home/user/notes.txt";
     row_chunk_index := Some 0;
     row_char_start := 0;
     row_char_end := 2000 |}.

(** The answers an embedding function gives to a batch, in order, or the
    first exception. *)
Fixpoint embeddings_via (f : str -> PyException + Vector) (texts : list str)
    : PyException + list Vector :=
  match texts with
  | [] => inr []
  | t :: rest =>
      match f t with
      | inl e => inl e
      | inr v =>
          match embeddings_via f rest with
          | inl e => inl e
          | inr vs => inr (v :: vs)
          end
      end
  end.

(** The rows an ingestion of [file_path] writes in environment [w], if it
    gets as far as the store. *)
Definition ingest_rows (w : World) (file_path : str) : option (list Row) :=
  if world_path_exists w file_path then
    match md_text w (fs_absolute w file_path) with
    | inl _ => None
    | inr text_content =>
        if no_meaningful_text text_content then None
        else
          let chunks :=
            chunk_text_total DocumentChunker_default
              (match text_content with Some t => t | None => [] end)
              (fs_absolute w file_path) in
          match chunks with
          | [] => None
          | _ =>
              match embeddings_via
                      (fun t => embedding_of w EMBEDDING_MODEL t TASK_TYPE_DOCUMENT
                                  EMBEDDING_DIMENSION)
                      (map text chunks) with
              | inl _ => None
              | inr vs => Some (map db_record (combine chunks vs))
              end
          end
    end
  else None.

(** ** Vocabulary for further properties *)

(** A string with no whitespace at either end, as [strip] leaves it. *)
Definition trimmed (s : str) : Prop :=
  (forall c, hd_error s = Some c -> PyStr.isspace c = false)
  /\ (forall c, hd_error (rev s) = Some c -> PyStr.isspace c = false).

(** The arguments of an embedding request, if the entry is one:
    model, content, task type, output dimensionality. *)
Definition embed_request (e : Entry) : option (str * str * str * Z) :=
  match entry_call e with
  | embed_content m t task d => Some (m, t, task, d)
  | _ => None
  end.

(** The exception an entry's call raised, if it did. *)
Definition raise_of (e : Entry) : option PyException :=
  match entry_reply e with
  | inl x => Some x
  | inr _ => None
  end.

(** The rows of a [table.add] that raised, with the exception. *)
Definition add_raise (e : Entry) : option (list Row * PyException) :=
  match e with
  | mkEntry _ c r =>
      match c in call X return PyException + X -> option (list Row * PyException) with
      | table_add _ _ data =>
          fun r => match r with inl x => Some (data, x) | inr _ => None end
      | _ => fun _ => None
      end r
  end.

(** The rows of a [create_table] call and how it ended. *)
Definition create_outcome (e : Entry) : option (list Row * (PyException + unit)) :=
  match e with
  | mkEntry _ c r =>
      match c in call X return PyException + X -> option (list Row * (PyException + unit)) with
      | create_table _ _ data => fun r => Some (data, r)
      | _ => fun _ => None
      end r
  end.

(** A table read ([open_table] or [to_pandas]) that raised. *)
Definition read_refused (e : Entry) : bool :=
  match e with
  | mkEntry _ c r =>
      match c in call X return PyException + X -> bool with
      | open_table _ _ | table_to_pandas _ _ =>
          fun r => match r with inl _ => true | inr _ => false end
      | _ => fun _ => false
      end r
  end.

(** The sum of a list of integers. *)
Definition total (l : list Z) : Z := fold_right Z.add 0 l.

(** The reference environment with a [table.add] that always raises. *)
Definition add_refusing_handler : handler World :=
  fun X c w =>
    match c in call X return World * (PyException + X) with
    | table_add _ _ _ => (w, inl (Exception (lit "schema mismatch")))
    | c' => world_handler _ c' w
    end.

(** An attempt to open or read the table. *)
Definition is_table_read (e : Entry) : bool :=
  match entry_call e with
  | open_table _ _ | table_to_pandas _ _ => true
  | _ => false
  end.

(** The sample environment with a converter that yields 2000 blanks
    followed by 500 letters. *)
Definition blank_page_world : World :=
  {| fs_exists := fs_exists sample_world;
     fs_absolute := fs_absolute sample_world;
     md_text := fun _ => inr (Some (repeat 32%N 2000 ++ repeat 97%N 500));
     embedding_of := embedding_of sample_world;
     nearest := nearest sample_world;
     store := NoDirectory |}.

(** The ranked result list, written out on its own (not through
    [format_results]): a first line with the number of rows and the query,
    then for the rows in the order received, numbered from 1, a header with
    the rank, the source's file name and the chunk index, the first 500
    characters of the text, and a marker when the text is longer. *)
Definition ranked_entry (ir : Z * Row) : list str :=
  [ [10%N] ++ lit "--- Result " ++ PyStr.of_int (fst ir) ++ lit " (from "
      ++ path_name (row_source (snd ir)) ++ lit ", chunk "
      ++ match row_chunk_index (snd ir) with
         | Some n => PyStr.of_int n
         | None => lit "?"
         end
      ++ lit ") ---";
    firstn 500 (row_text (snd ir)) ]
  ++ (if 500 <? len (row_text (snd ir)) then [lit "... (truncated)"] else []).

Definition ranked_listing (query : str) (rows : list Row) : str :=
  PyStr.join [10%N]
    ((lit "Found " ++ PyStr.of_int (Z.of_nat (length rows))
        ++ lit " relevant chunks for '" ++ query ++ lit "':" ++ [10%N])
     :: flat_map ranked_entry (combine (map Z.of_nat (seq 1 (length rows))) rows)).

(** The reference environment with an embedding service that always
    raises. *)
Definition embed_refusing_handler : handler World :=
  fun X c w =>
    match c in call X return World * (PyException + X) with
    | embed_content _ _ _ _ => (w, inl (Exception (lit "quota exceeded")))
    | c' => world_handler _ c' w
    end.

(** A row of another document. *)
Definition other_row : Row :=
  {| row_text := repeat 98%N 120;
     row_vector := [S754_zero false];
     row_source := lit "/home/user/plan.txt";
     row_chunk_index := Some 0;
     row_char_start := 0;
     row_char_end := 2000 |}.

(** * Properties of the chunker *)

Section ChunkingFacts.

Variable self : DocumentChunker.
Variable txt : str.
Variable src : str.

Local Abbreviation step := (chunk_step self txt src).
Local Abbreviation run := (chunk_run self txt src).
Local Abbreviation after := (state_after self txt src).
Local Abbreviation upto := (windows self txt src).
Local Abbreviation emit := (emits self txt).

Lemma windows_succ k : upto (S k) = upto k ++ [window self txt src k].
Proof.
  unfold windows. rewrite seq_S, map_app. reflexivity.
Qed.

Lemma windows_length k : length (upto k) = k.
Proof. unfold windows. now rewrite length_map, length_seq. Qed.

Lemma windows_nth k i :
  (i < k)%nat -> nth_error (upto k) i = Some (window self txt src i).
Proof.
  intros Hik. unfold windows.
  rewrite nth_error_map, nth_error_seq.
  destruct (Nat.ltb_spec i k); [reflexivity | lia].
Qed.

Lemma step_emits k : emit k = true -> step (after k) = inl (after (S k)).
Proof.
  unfold emits, chunk_step. cbn [start chunk_idx chunks state_after].
  intros H. apply andb_true_iff in H as [Hlt Hbig].
  rewrite Hlt. apply negb_true_iff in Hbig. rewrite Hbig.
  f_equal. unfold state_after. rewrite windows_succ.
  f_equal; unfold stride; lia.
Qed.

Lemma step_stops k : emit k = false -> step (after k) = inr (upto k).
Proof.
  unfold emits, chunk_step. cbn [start chunk_idx chunks state_after].
  intros H. destruct (_ <? len txt); [| reflexivity].
  cbn in H. apply negb_false_iff in H. now rewrite H.
Qed.

(** Running on from the state after [k] iterations: either every
    iteration emitted, or the loop left at the first one that did not. *)
Lemma run_after n : forall k,
  (run n (after k) = inl (after (k + n))
     /\ forall j, (k <= j < k + n)%nat -> emit j = true)
  \/ (exists m, (k <= m < k + n)%nat /\ run n (after k) = inr (upto m)
        /\ emit m = false /\ forall j, (k <= j < m)%nat -> emit j = true).
Proof.
  induction n as [|n IH]; intros k.
  - left. rewrite Nat.add_0_r. split; [reflexivity | lia].
  - destruct (emit k) eqn:Ek.
    + cbn [chunk_run]. rewrite (step_emits _ Ek).
      destruct (IH (S k)) as [[Hrun Hall] | (m & Hm & Hrun & Hstop & Hall)].
      * left. replace (k + S n)%nat with (S k + n)%nat by lia.
        split; [exact Hrun |].
        intros j Hj. destruct (Nat.eq_dec j k) as [-> | Hne]; [exact Ek |].
        apply Hall. lia.
      * right. exists m. repeat split; try lia; try assumption.
        intros j Hj. destruct (Nat.eq_dec j k) as [-> | Hne]; [exact Ek |].
        apply Hall. lia.
    + right. exists k. cbn [chunk_run]. rewrite (step_stops _ Ek).
      repeat split; try lia; auto.
Qed.

Lemma after_0 : after 0 = loop_init.
Proof. reflexivity. Qed.

(** What a returning call returns: the windows before the first one that
    is not emitted. *)
Lemma chunk_text_returns fuel l :
  chunk_text self txt src fuel = Some l ->
  exists m, (m < fuel)%nat /\ l = upto m /\ emit m = false
            /\ forall j, (j < m)%nat -> emit j = true.
Proof.
  unfold chunk_text. rewrite <- after_0.
  destruct (run_after fuel 0) as [[Hrun _] | (m & Hm & Hrun & Hstop & Hall)];
    rewrite Hrun; [discriminate |].
  intros [= <-]. exists m. repeat split; try lia; auto.
  intros j Hj. apply Hall. lia.
Qed.

Lemma chunk_text_stops_at m fuel :
  emit m = false -> (forall j, (j < m)%nat -> emit j = true) ->
  (m < fuel)%nat ->
  chunk_text self txt src fuel = Some (upto m).
Proof.
  intros Hstop Hall Hfuel. unfold chunk_text. rewrite <- after_0.
  destruct (run_after fuel 0) as [[_ Hall'] | (m' & Hm' & Hrun & Hstop' & Hall')].
  - rewrite Hall' in Hstop by lia. discriminate.
  - rewrite Hrun. do 2 f_equal.
    destruct (Nat.lt_trichotomy m m') as [Hlt | [Heq | Hgt]]; [| auto |].
    + rewrite Hall' in Hstop by lia. discriminate.
    + rewrite Hall in Hstop' by lia. discriminate.
Qed.

(** The partial states of a run that has not returned yet. *)
Lemma chunk_run_running n st :
  run n loop_init = inl st -> st = after n.
Proof.
  rewrite <- after_0.
  destruct (run_after n 0) as [[Hrun _] | (m & _ & Hrun & _)]; rewrite Hrun.
  - now intros [= <-].
  - discriminate.
Qed.

(** Bounded search for the first iteration that does not emit. *)
Lemma first_stop bound :
  emit bound = false ->
  exists m, (m <= bound)%nat /\ emit m = false
            /\ forall j, (j < m)%nat -> emit j = true.
Proof.
  induction bound as [bound IH] using lt_wf_ind. intros Hb.
  destruct (forallb emit (seq 0 bound)) eqn:Hall.
  - exists bound. repeat split; auto.
    intros j Hj. rewrite forallb_forall in Hall. apply Hall.
    apply in_seq. lia.
  - assert (exists j, (j < bound)%nat /\ emit j = false) as (j & Hj & Ej).
    { clear -Hall. induction bound as [|b IHb]; [discriminate |].
      rewrite seq_S, forallb_app in Hall. cbn in Hall.
      destruct (forallb emit (seq 0 b)).
      - exists b. split; [lia |]. cbn in Hall.
        now rewrite andb_true_r in Hall.
      - destruct IHb as (j & Hj & Ej); [reflexivity |].
        exists j. split; [lia | exact Ej]. }
    destruct (IH j Hj Ej) as (m & Hm & Em & Hbefore).
    exists m. repeat split; auto. lia.
Qed.

Lemma emits_beyond_text k :
  overlap self < chunk_size self -> (length txt <= k)%nat -> emit k = false.
Proof.
  intros Hpre Hk. unfold emits, stride.
  replace (_ <? len txt) with false; [reflexivity |].
  symmetry. apply Z.ltb_ge. unfold PyStr.len. nia.
Qed.

(** With a positive stride the loop has returned after [length txt + 1]
    tests, whatever larger bound is given. *)
Lemma chunk_text_enough_fuel :
  overlap self < chunk_size self ->
  exists m, (m <= length txt)%nat /\
    emit m = false /\ (forall j, (j < m)%nat -> emit j = true) /\
    forall fuel, (length txt < fuel)%nat ->
      chunk_text self txt src fuel = Some (upto m).
Proof.
  intros Hpre.
  destruct (first_stop (length txt)) as (m & Hm & Em & Hall).
  { now apply emits_beyond_text. }
  exists m. repeat split; auto.
  intros fuel Hfuel. apply chunk_text_stops_at; auto. lia.
Qed.

Lemma chunk_text_total_eq :
  overlap self < chunk_size self ->
  forall fuel, (length txt < fuel)%nat ->
    chunk_text self txt src fuel = Some (chunk_text_total self txt src).
Proof.
  intros Hpre fuel Hfuel.
  destruct (chunk_text_enough_fuel Hpre) as (m & _ & _ & _ & Hrun).
  unfold chunk_text_total. rewrite (Hrun (S (length txt))) by lia.
  now apply Hrun.
Qed.

End ChunkingFacts.

(** ** Claims about [DocumentChunker.chunk_text] *)

Lemma first_stop_unique (self : DocumentChunker) (txt : str) (m m' : nat) :
  emits self txt m = false -> (forall j, (j < m)%nat -> emits self txt j = true) ->
  emits self txt m' = false -> (forall j, (j < m')%nat -> emits self txt j = true) ->
  m = m'.
Proof.
  intros Em Hm Em' Hm'.
  destruct (Nat.lt_trichotomy m m') as [Hlt | [Heq | Hgt]]; [exfalso | exact Heq | exfalso].
  - specialize (Hm' m Hlt). congruence.
  - specialize (Hm m' Hgt). congruence.
Qed.

Lemma emits_inside (self : DocumentChunker) (txt : str) (k : nat) :
  emits self txt k = true -> Z.of_nat k * stride self < len txt.
Proof.
  unfold emits. intros H. apply andb_true_iff in H as [H _].
  now apply Z.ltb_lt.
Qed.

Lemma window_fields (self : DocumentChunker) (txt src : str) (k : nat) :
  chunk_index (window self txt src k) = Z.of_nat k
  /\ char_start (window self txt src k) = Z.of_nat k * (chunk_size self - overlap self)
  /\ char_end (window self txt src k) - char_start (window self txt src k) = chunk_size self.
Proof.
  unfold window, stride. cbn. repeat split. lia.
Qed.

Lemma windows_nth_inv (self : DocumentChunker) (txt src : str) (m i : nat) (c : Chunk) :
  nth_error (windows self txt src m) i = Some c ->
  (i < m)%nat /\ c = window self txt src i.
Proof.
  intros H.
  assert (i < m)%nat as Him.
  { rewrite <- (windows_length self txt src m). apply nth_error_Some. congruence. }
  split; [exact Him |].
  rewrite windows_nth in H by exact Him. congruence.
Qed.

(** C1, as stated, fails: a text of 2000 letters "a" yields two chunks
    (offsets 0 and 1800), where the formula gives one. *)
Lemma chunk_count_formula_fails :
  let txt := repeat 97%N 2000 in
  exists l,
    chunk_text DocumentChunker_default txt (lit "doc.txt") 2001 = Some l
    /\ 2000 <= len txt
    /\ Z.of_nat (length l) = 2
    /\ (len txt - 2000) / 1800 + 1 = 1.
Proof.
  cbv zeta. eexists. split; [vm_compute; reflexivity |].
  repeat split; vm_compute; congruence.
Qed.

(** C1 (amended): with chunk_size 2000 and overlap 200, on a text of
    length L >= 2000 the call returns at most floor((L - 1) / 1800) + 1
    chunks, exactly that many when no window starting below L is cut off by
    the minimum-content test, and consecutive chunks start 1800 apart. *)
Theorem chunk_count_default (txt src : str) :
  2000 <= len txt ->
  exists l,
    (forall fuel, (length txt < fuel)%nat ->
       chunk_text DocumentChunker_default txt src fuel = Some l)
    /\ Z.of_nat (length l) <= (len txt - 1) / 1800 + 1
    /\ ((forall k, 0 <= k -> 1800 * k < len txt ->
           100 <= len (PyStr.strip (PyStr.slice txt (1800 * k) (1800 * k + 2000))))
        -> Z.of_nat (length l) = (len txt - 1) / 1800 + 1)
    /\ (forall i c d, nth_error l i = Some c -> nth_error l (S i) = Some d ->
          char_start d - char_start c = 1800).
Proof.
  intros HL.
  destruct (chunk_text_enough_fuel DocumentChunker_default txt src)
    as (m & Hm & Em & Hall & Hrun); [reflexivity |].
  exists (windows DocumentChunker_default txt src m).
  rewrite windows_length.
  assert (Hstride : stride DocumentChunker_default = 1800) by reflexivity.
  split; [exact Hrun |]. split; [| split].
  - destruct m as [|m']; [apply Z.add_nonneg_nonneg; [apply Z.div_pos |]; lia |].
    pose proof (emits_inside _ _ _ (Hall m' (Nat.lt_succ_diag_r m'))) as Hin.
    rewrite Hstride in Hin.
    assert (Z.of_nat m' <= (len txt - 1) / 1800)
      by (apply Z.div_le_lower_bound; lia).
    lia.
  - intros Hfull.
    assert (Hup : Z.of_nat m <= (len txt - 1) / 1800 + 1).
    { destruct m as [|m']; [apply Z.add_nonneg_nonneg; [apply Z.div_pos |]; lia |].
      pose proof (emits_inside _ _ _ (Hall m' (Nat.lt_succ_diag_r m'))) as Hin.
      rewrite Hstride in Hin.
      assert (Z.of_nat m' <= (len txt - 1) / 1800)
        by (apply Z.div_le_lower_bound; lia).
      lia. }
    assert (Hlow : (len txt - 1) / 1800 < Z.of_nat m).
    { apply Z.div_lt_upper_bound; [lia |].
      destruct (Z.ltb_spec (1800 * Z.of_nat m) (len txt)) as [Hlt | Hge]; [| lia].
      exfalso. unfold emits in Em. rewrite Hstride in Em.
      replace (Z.of_nat m * 1800) with (1800 * Z.of_nat m) in Em by lia.
      apply andb_false_iff in Em as [Em | Em].
      - apply Z.ltb_ge in Em. lia.
      - apply negb_false_iff, Z.ltb_lt in Em.
        specialize (Hfull (Z.of_nat m) (Nat2Z.is_nonneg m) Hlt).
        change (chunk_size DocumentChunker_default) with 2000 in Em. lia. }
    lia.
  - intros i c d Hc Hd.
    apply windows_nth_inv in Hc as [_ ->]. apply windows_nth_inv in Hd as [_ ->].
    unfold window. cbn [char_start]. rewrite Hstride. lia.
Qed.

Lemma chunk_count_default_witness :
  exists l,
    chunk_text DocumentChunker_default (repeat 97%N 2000) [] 2001 = Some l
    /\ Z.of_nat (length l) <= 2.
Proof.
  destruct (chunk_count_default (repeat 97%N 2000) []) as (l & Hrun & Hle & _).
  - vm_compute. discriminate.
  - exists l. split.
    + apply Hrun. rewrite repeat_length. apply Nat.lt_succ_diag_r.
    + exact Hle.
Defined.

(** C3: for 0 <= overlap < chunk_size the call returns a list whose i-th
    chunk has chunk_index i and char_start i * (chunk_size - overlap); from
    one chunk to the next chunk_index grows by 1 and char_start by
    chunk_size - overlap, so the list ascends in both. *)
Theorem chunk_positions (self : DocumentChunker) (txt src : str) :
  0 <= overlap self < chunk_size self ->
  exists l,
    chunk_text self txt src (S (length txt)) = Some l
    /\ (forall i c, nth_error l i = Some c ->
          chunk_index c = Z.of_nat i
          /\ char_start c = Z.of_nat i * (chunk_size self - overlap self))
    /\ (forall i c d, nth_error l i = Some c -> nth_error l (S i) = Some d ->
          chunk_index d = chunk_index c + 1
          /\ char_start d = char_start c + (chunk_size self - overlap self)
          /\ char_start c < char_start d)
    /\ (forall i j c d, (i < j)%nat -> nth_error l i = Some c -> nth_error l j = Some d ->
          chunk_index c < chunk_index d /\ char_start c < char_start d).
Proof.
  intros [Hov Hlt].
  destruct (chunk_text_enough_fuel self txt src Hlt) as (m & _ & _ & _ & Hrun).
  exists (windows self txt src m).
  split; [apply Hrun; lia |]. split; [| split].
  - intros i c Hc. apply windows_nth_inv in Hc as [_ ->].
    destruct (window_fields self txt src i) as (Hi & Hs & _). now split.
  - intros i c d Hc Hd.
    apply windows_nth_inv in Hc as [_ ->]. apply windows_nth_inv in Hd as [_ ->].
    destruct (window_fields self txt src i) as (-> & -> & _).
    destruct (window_fields self txt src (S i)) as (-> & -> & _).
    repeat split; lia.
  - intros i j c d Hij Hc Hd.
    apply windows_nth_inv in Hc as [_ ->]. apply windows_nth_inv in Hd as [_ ->].
    destruct (window_fields self txt src i) as (-> & -> & _).
    destruct (window_fields self txt src j) as (-> & -> & _).
    split; nia.
Qed.

Lemma chunk_positions_witness :
  exists l,
    chunk_text {| chunk_size := 150; overlap := 30 |} (repeat 97%N 300) [] 301 = Some l
    /\ forall i c, nth_error l i = Some c ->
         chunk_index c = Z.of_nat i /\ char_start c = Z.of_nat i * (150 - 30).
Proof.
  destruct (chunk_positions {| chunk_size := 150; overlap := 30 |} (repeat 97%N 300) [])
    as (l & Hrun & Hpos & _).
  - cbn. lia.
  - exists l. split; [exact Hrun | exact Hpos].
Defined.

(** C7: for 0 <= overlap < chunk_size every iteration moves the start
    offset forward by chunk_size - overlap > 0, the loop has returned after
    at most [length txt + 1] tests, and every run that returns gives the
    same list, of at most [length txt] chunks. *)
Theorem chunk_text_terminates (self : DocumentChunker) (txt src : str) :
  0 <= overlap self < chunk_size self ->
  (forall st st', chunk_step self txt src st = inl st' ->
     start st' = start st + (chunk_size self - overlap self) /\ start st < start st')
  /\ exists l,
       (forall fuel, (length txt < fuel)%nat -> chunk_text self txt src fuel = Some l)
       /\ (forall fuel l', chunk_text self txt src fuel = Some l' -> l' = l)
       /\ (length l <= length txt)%nat.
Proof.
  intros [Hov Hlt]. split.
  - intros st st'. unfold chunk_step.
    destruct (start st <? len txt); [| discriminate].
    destruct (_ <? 100); [discriminate |].
    intros [= <-]. cbn. lia.
  - destruct (chunk_text_enough_fuel self txt src Hlt) as (m & Hm & Em & Hall & Hrun).
    exists (windows self txt src m). split; [exact Hrun |]. split.
    + intros fuel l' Hl'.
      apply chunk_text_returns in Hl' as (m' & _ & -> & Em' & Hall').
      now rewrite (first_stop_unique self txt m' m).
    + now rewrite windows_length.
Qed.

Lemma chunk_text_terminates_witness :
  exists l, forall fuel, (300 < fuel)%nat ->
    chunk_text {| chunk_size := 150; overlap := 30 |} (repeat 97%N 300) [] fuel = Some l.
Proof.
  destruct (chunk_text_terminates {| chunk_size := 150; overlap := 30 |} (repeat 97%N 300) [])
    as (_ & l & Hrun & _).
  - cbn. lia.
  - exists l. exact Hrun.
Defined.

(** C10: whatever the text, source and parameters, every chunk the loop
    has appended -- in a list it returns or in the list built so far --
    has char_end - char_start = chunk_size; char_end is not clipped to the
    text, so the last chunk of a 2000-character text ends at 3800 while
    holding 200 characters. *)
Theorem chunk_span_exact (self : DocumentChunker) (txt src : str) (n : nat) :
  (forall l, chunk_text self txt src n = Some l ->
     Forall (fun c => char_end c - char_start c = chunk_size self) l)
  /\ (forall st, chunk_run self txt src n loop_init = inl st ->
        Forall (fun c => char_end c - char_start c = chunk_size self) (chunks st))
  /\ exists txt0 l c,
       chunk_text DocumentChunker_default txt0 src (S (length txt0)) = Some l
       /\ nth_error l (length l - 1) = Some c
       /\ len txt0 < char_end c
       /\ len (text c) < chunk_size DocumentChunker_default.
Proof.
  assert (Hall : forall m,
            Forall (fun c => char_end c - char_start c = chunk_size self)
                   (windows self txt src m)).
  { intros m. unfold windows. apply Forall_map, Forall_forall. intros k _.
    apply window_fields. }
  split; [| split].
  - intros l Hl. apply chunk_text_returns in Hl as (m & _ & -> & _). apply Hall.
  - intros st Hst. apply chunk_run_running in Hst as ->. apply Hall.
  - exists (repeat 97%N 2000).
    eexists. eexists. split; [vm_compute; reflexivity |].
    split; [reflexivity |]. split; vm_compute; reflexivity.
Qed.

Lemma chunk_span_exact_witness :
  Forall (fun c => char_end c - char_start c = 150)
         (chunk_text_total {| chunk_size := 150; overlap := 30 |} (repeat 97%N 300) []).
Proof.
  apply (proj1 (chunk_span_exact {| chunk_size := 150; overlap := 30 |}
                  (repeat 97%N 300) [] 301)).
  vm_compute. reflexivity.
Defined.

(** * Properties of the tools *)

(** ** Running composed computations *)

Section Exec.

Context {W : Type} (h : handler W).

Lemma exec_bind {A B : Type} (p : prog A) (f : A -> prog B) :
  forall w log, exec h (bind p f) w log = and_then h (exec h p w log) f.
Proof.
  induction p as [a | e | X c k IH]; intros w log; cbn; try reflexivity.
  destruct (h X c w) as [w' r]. apply IH.
Qed.

Lemma exec_try_except {A : Type} (p : prog A) (hd : PyException -> prog A) :
  forall w log, exec h (try_except p hd) w log = or_else h (exec h p w log) hd.
Proof.
  induction p as [a | e | X c k IH]; intros w log; cbn; try reflexivity.
  destruct (h X c w) as [w' r]. apply IH.
Qed.

Lemma exec_perform {X : Type} (c : call X) w log :
  exec h (perform c) w log =
  mkOutcome (fst (h X c w)) (log ++ [mkEntry X c (snd (h X c w))]) (snd (h X c w)).
Proof.
  cbn. destruct (h X c w) as [w' [e | x]]; reflexivity.
Qed.

Lemma exec_attempt {X : Type} (c : call X) w log :
  exec h (attempt c) w log =
  mkOutcome (fst (h X c w)) (log ++ [mkEntry X c (snd (h X c w))]) (inr (snd (h X c w))).
Proof.
  cbn. destruct (h X c w) as [w' r]. reflexivity.
Qed.

(** The log is only ever extended. *)
Lemma exec_log {A : Type} (p : prog A) :
  forall w log,
    exec h p w log =
    mkOutcome (final (exec h p w [])) (log ++ trace (exec h p w [])) (result (exec h p w [])).
Proof.
  induction p as [a | e | X c k IH]; intros w log; cbn.
  - now rewrite app_nil_r.
  - now rewrite app_nil_r.
  - destruct (h X c w) as [w' r].
    rewrite (IH r w' (log ++ _)), (IH r w' [_]). cbn.
    now rewrite <- app_assoc.
Qed.


(** A run that made no store call left untouched whatever the other calls
    leave untouched. *)
Lemma exec_frame {A K : Type} (kb : W -> K) (p : prog A) :
  (forall X (c : call X) w, is_store_call c = false -> kb (fst (h X c w)) = kb w) ->
  forall w, no_store_call (trace (exec h p w [])) -> kb (final (exec h p w [])) = kb w.
Proof.
  intros Hframe.
  induction p as [a | e | X c k IH]; intros w; cbn; try reflexivity.
  destruct (h X c w) as [w' r] eqn:Hh. rewrite exec_log. cbn.
  intros Hno. apply Forall_cons_iff in Hno as [Hc Hrest]. cbn in Hc.
  rewrite (IH r w' Hrest).
  specialize (Hframe X c w Hc). now rewrite Hh in Hframe.
Qed.

(** *** The embedding loop *)

Lemma exec_batch_loop (self : EmbeddingGenerator) (task_type : str) (texts : list str) :
  forall embeddings w log,
    exec h (batch_loop self task_type texts embeddings) w log =
    map_result (app embeddings) (exec h (embed_each self task_type texts) w log).
Proof.
  induction texts as [|t rest IH]; intros acc w log.
  - cbn. unfold map_result. cbn. now rewrite app_nil_r.
  - cbn. destruct (h Vector _ w) as [w' [e | v]]; cbn; [reflexivity |].
    rewrite IH, exec_bind. unfold and_then, map_result.
    destruct (result (exec h (embed_each self task_type rest) w' _)) as [e | vs] eqn:Hr;
      cbn; rewrite ?Hr; [reflexivity |].
    now rewrite <- app_assoc.
Qed.

(** What the calls of a batch look like: embedding calls only, all of
    them answered when the batch returns, one vector per text. *)
Lemma exec_embed_each (self : EmbeddingGenerator) (task_type : str) (texts : list str) :
  forall w log,
    let o := exec h (embed_each self task_type texts) w log in
    exists t,
      trace o = log ++ t
      /\ Forall (fun e => is_store_call (entry_call e) = false) t
      /\ match result o with
         | inr vs =>
             length vs = length texts
             /\ Forall (fun e => pre_store_failure e = false) t
         | inl _ => Exists (fun e => pre_store_failure e = true) t
         end.
Proof.
  induction texts as [|t rest IH]; intros w log; cbn.
  - exists []. rewrite app_nil_r. repeat split; constructor.
  - set (c := embed_content (model self) t task_type (dimension self)).
    destruct (h Vector c w) as [w' [e | v]] eqn:Hh; cbn.
    + exists [mkEntry Vector c (inl e)]. split; [reflexivity |]. split.
      * constructor; [reflexivity | constructor].
      * now constructor.
    + rewrite exec_bind. unfold and_then.
      destruct (IH w' (log ++ [mkEntry Vector c (inr v)])) as (tr & Htr & Hns & Hres).
      destruct (result (exec h (embed_each self task_type rest) w' _)) as [e | vs] eqn:Hr; cbn.
      * exists (mkEntry Vector c (inr v) :: tr). rewrite Htr, <- app_assoc.
        split; [reflexivity |].
        split; [constructor; [reflexivity | exact Hns] |].
        now apply Exists_cons_tl.
      * exists (mkEntry Vector c (inr v) :: tr). rewrite Htr, <- app_assoc.
        split; [reflexivity |].
        destruct Hres as [Hlen Hok].
        split; [constructor; [reflexivity | exact Hns] |].
        split; [now rewrite Hlen |]. constructor; [reflexivity | exact Hok].
Qed.

End Exec.

(** ** Claim about [EmbeddingGenerator] *)

(** C2: against any embedding service, the batch function behaves as the
    single-text function called on each text in turn: same calls, same
    outcome; when it returns, it returns one vector per text, in input
    order, and with a service whose answer depends on the request alone the
    i-th vector is what [generate_embedding] returns for the i-th text. *)
Theorem batch_is_map_of_single {W : Type} (h : handler W) (self : EmbeddingGenerator)
    (texts : list str) (task_type : str) (w : W) :
  run h (generate_batch_embeddings self texts task_type) w
    = run h (embed_each self task_type texts) w
  /\ (forall vs,
        result (run h (generate_batch_embeddings self texts task_type) w) = inr vs ->
        length vs = length texts)
  /\ ((forall t w1 w2,
         snd (h _ (embed_content (model self) t task_type (dimension self)) w1)
         = snd (h _ (embed_content (model self) t task_type (dimension self)) w2)) ->
      forall vs,
        result (run h (generate_batch_embeddings self texts task_type) w) = inr vs ->
        forall i t w0, nth_error texts i = Some t ->
          exists v, nth_error vs i = Some v
                    /\ result (run h (generate_embedding self t task_type) w0) = inr v).
Proof.
  assert (Heq : run h (generate_batch_embeddings self texts task_type) w
                = run h (embed_each self task_type texts) w).
  { unfold run, generate_batch_embeddings. rewrite exec_batch_loop.
    unfold map_result. cbn.
    destruct (exec h (embed_each self task_type texts) w []) as [fw tr [e | vs]];
      reflexivity. }
  split; [exact Heq |]. rewrite Heq. split.
  - intros vs Hvs.
    destruct (exec_embed_each h self task_type texts w []) as (t & _ & _ & Hres).
    unfold run in Hvs. rewrite Hvs in Hres. apply Hres.
  - intros Hdet vs Hvs. clear Heq. unfold run in Hvs. revert vs Hvs.
    generalize (@nil Entry). revert w.
    induction texts as [|t rest IH]; intros w log vs Hvs i t' w0 Hi.
    + destruct i; discriminate.
    + cbn in Hvs.
      destruct (h Vector (embed_content (model self) t task_type (dimension self)) w)
        as [w' [e | v]] eqn:Hh; cbn in Hvs; [discriminate |].
      rewrite exec_bind in Hvs. unfold and_then in Hvs.
      destruct (result (exec h (embed_each self task_type rest) w' _)) as [e | vs'] eqn:Hr;
        cbn in Hvs; [discriminate |].
      injection Hvs as <-.
      destruct i as [|i]; cbn in Hi.
      * injection Hi as <-. exists v. split; [reflexivity |].
        cbn. specialize (Hdet t w0 w). rewrite Hh in Hdet. cbn in Hdet.
        destruct (h Vector _ w0) as [w0' r0]. cbn in *. subst r0. reflexivity.
      * exact (IH w' _ vs' Hr i t' w0 Hi).
Qed.

Lemma batch_is_map_of_single_witness :
  exists vs,
    result (run world_handler
              (generate_batch_embeddings EmbeddingGenerator_default
                 [lit "ab"; lit "c"] TASK_TYPE_DOCUMENT) sample_world) = inr vs
    /\ length vs = 2%nat.
Proof.
  exists [[S754_zero false]; [S754_zero false]]. split; [reflexivity |].
  apply (proj1 (proj2 (batch_is_map_of_single world_handler EmbeddingGenerator_default
                         [lit "ab"; lit "c"] TASK_TYPE_DOCUMENT sample_world))).
  reflexivity.
Defined.

(** ** Walking through a tool call by call *)

(** Unfold the computation up to its next external call and split on the
    environment's answer. *)
Ltac next_call h :=
  cbn [exec try_except bind perform attempt generate_embedding run
       result final trace app negb];
  lazymatch goal with
  | |- context [h ?X ?c ?w] =>
      let w' := fresh "w" in
      let r := fresh "r" in
      let E := fresh "Hcall" in
      destruct (h X c w) as [w' r] eqn:E
  end.

Ltac finish_run :=
  cbn [exec try_except bind perform attempt generate_embedding run
       result final trace app negb].

(** Decide a statement about which entries a fully known trace holds. *)
Ltac scan_trace H :=
  repeat (apply Exists_cons in H; destruct H as [H | H];
          [cbn in H; try discriminate |]);
  try (apply Exists_nil in H; contradiction).

Section ToolFacts.

Context {W : Type} (h : handler W).







(** *** The calls of [index_document] *)

Lemma exec_store_records (data : list Row) (w : W) (log : list Entry) :
  exists t,
    trace (exec h (store_records data) w log) = log ++ t
    /\ Forall (fun e => pre_store_failure e = false) t.
Proof.
  unfold store_records.
  next_call h. destruct r as [e | []]; finish_run;
    [eexists; split; [reflexivity | repeat constructor] |].
  next_call h. destruct r as [e | []]; finish_run.
  - next_call h. destruct r as [e' | []]; finish_run;
      rewrite <- !app_assoc; eexists; split; try reflexivity; repeat constructor.
  - next_call h. destruct r as [e | []]; finish_run.
    + next_call h. destruct r as [e' | []]; finish_run;
        rewrite <- !app_assoc; eexists; split; try reflexivity; repeat constructor.
    + rewrite <- !app_assoc; eexists; split; try reflexivity; repeat constructor.
Qed.

(** Whether any chunk comes out does not depend on the source name. *)
Lemma chunk_text_total_nil (self : DocumentChunker) (txt src src' : str) :
  overlap self < chunk_size self ->
  chunk_text_total self txt src = [] -> chunk_text_total self txt src' = [].
Proof.
  intros Hpre.
  destruct (chunk_text_enough_fuel self txt src Hpre) as (m & _ & Em & Hm & Hrun).
  destruct (chunk_text_enough_fuel self txt src' Hpre) as (m' & _ & Em' & Hm' & Hrun').
  unfold chunk_text_total. rewrite Hrun, Hrun' by lia.
  rewrite (first_stop_unique self txt m' m) by assumption.
  intros Hnil. apply (f_equal (@length Chunk)) in Hnil.
  rewrite windows_length in Hnil. cbn in Hnil. now subst m.
Qed.

(** Either the store was never called, or every step before it went
    through. *)
Lemma index_document_trace (fp : str) (w : W) :
  no_store_call (trace (run h (index_document fp) w))
  \/ Forall (fun e => pre_store_failure e = false) (trace (run h (index_document fp) w)).
Proof.
  unfold index_document.
  next_call h. destruct r as [e | [|]]; finish_run;
    [left; repeat constructor | | left; repeat constructor].
  next_call h. destruct r as [e | abs_path]; finish_run; [left; repeat constructor |].
  next_call h. destruct r as [e | text_content]; finish_run; [left; repeat constructor |].
  destruct (no_meaningful_text text_content) eqn:Htext; finish_run;
    [left; repeat constructor |].
  next_call h. destruct r as [e | src]; finish_run; [left; repeat constructor |].
  set (t := match text_content with Some t => t | None => [] end).
  destruct (chunk_text_total DocumentChunker_default t src) as [|c cs] eqn:Hchunks;
    finish_run; [left; repeat constructor |].
  rewrite !exec_try_except, !exec_bind. unfold generate_batch_embeddings.
  rewrite exec_batch_loop.
  match goal with
  | |- context [exec h (embed_each ?g ?tt ?txts) ?w' ?log] =>
      destruct (exec_embed_each h g tt txts w' log) as (tr & Htr & Hns & Hres);
      destruct (exec h (embed_each g tt txts) w' log) as [fw ftr [e | vs]] eqn:Hb
  end; cbn [result trace final] in Htr, Hres; subst ftr;
    unfold map_result, and_then, or_else; cbn [result trace final]; finish_run.
  - left. repeat (constructor; [reflexivity |]). exact Hns.
  - right. rewrite exec_bind. unfold and_then.
    match goal with
    | |- context [exec h (store_records ?d) ?w' ?log] =>
        destruct (exec_store_records d w' log) as (ts & Hts & Hok);
        destruct (exec h (store_records d) w' log) as [sw str [e | []]]
    end; cbn [result trace final] in *; subst str; finish_run.
    all: destruct Hres as [_ Hres].
    all: cbn [app].
    all: assert (Hconv : pre_store_failure
                   (mkEntry _ (markitdown_convert abs_path) (inr text_content)) = false)
      by (cbn; rewrite Htext; cbn; fold t;
          destruct (chunk_text_total DocumentChunker_default t []) eqn:Hnil;
          [apply (chunk_text_total_nil _ _ _ src) in Hnil; [congruence | reflexivity]
          | reflexivity]).
    all: constructor; [reflexivity |]; constructor; [reflexivity |].
    all: constructor; [exact Hconv |]; constructor; [reflexivity |].
    all: apply Forall_app; split; assumption.
Qed.

End ToolFacts.

(** ** Claims about the three tools *)

Lemma first_char_differs (a b : str) : hd 0%N a <> hd 0%N b -> a <> b.
Proof. intros Hne Heq. apply Hne. now rewrite Heq. Qed.

Lemma format_results_first (q : str) (rows : list Row) :
  hd 0%N (format_results q rows) = 70%N.
Proof.
  unfold format_results. cbn [PyStr.join].
  destruct (results_lines 1 rows); reflexivity.
Qed.

Lemma world_handler_frame (X : Type) (c : call X) (w : World) :
  is_store_call c = false -> store (fst (world_handler X c w)) = store w.
Proof.
  destruct c; cbn; intros Hc; try discriminate; reflexivity.
Qed.

Lemma slice_prefix (s : str) (n : Z) :
  0 <= n -> PyStr.slice s 0 n = firstn (Z.to_nat n) s.
Proof.
  intros Hn. unfold PyStr.slice, PyStr.slice_bound.
  replace (0 <? 0) with false by reflexivity.
  destruct (Z.ltb_spec n 0); [lia |].
  replace (Z.min 0 (len s)) with 0 by (unfold PyStr.len; lia).
  rewrite Z.sub_0_r. change (skipn (Z.to_nat 0) s) with s.
  destruct (Z.le_gt_cases n (len s)) as [Hle | Hgt].
  - now rewrite Z.min_l by lia.
  - rewrite Z.min_r by lia. unfold PyStr.len in *. rewrite Nat2Z.id, firstn_all.
    symmetry. apply firstn_all2. lia.
Qed.

Lemma result_lines_ranked (i : Z) (r : Row) : result_lines i r = ranked_entry (i, r).
Proof.
  unfold result_lines, ranked_entry. cbn [fst snd].
  now rewrite slice_prefix.
Qed.

Lemma results_lines_ranked (rows : list Row) :
  forall n,
    results_lines (Z.of_nat n) rows
    = flat_map ranked_entry (combine (map Z.of_nat (seq n (length rows))) rows).
Proof.
  induction rows as [|r rows IH]; intros n; [reflexivity |].
  cbn [results_lines length seq map combine flat_map].
  rewrite result_lines_ranked. f_equal.
  replace (Z.of_nat n + 1) with (Z.of_nat (S n)) by lia. apply IH.
Qed.

Lemma format_results_ranked (query : str) (rows : list Row) :
  format_results query rows = ranked_listing query rows.
Proof.
  unfold format_results, ranked_listing.
  rewrite <- (results_lines_ranked rows 1). reflexivity.
Qed.

(** C4, as stated, fails: there are more than three outcomes.  With the
    index in place and a row to find, a raising embedding call makes the
    tool answer with an error report, which is none of the three signals;
    and a location that exists without the table gets a second, different
    "index first" message. *)
Lemma search_outcomes_not_three :
  let out :=
    result (run embed_refusing_handler (search_knowledge_base (lit "aaa") 5)
              (set_store sample_world (Table [sample_row]))) in
  let out' :=
    result (run world_handler (search_knowledge_base (lit "aaa") 5)
              (set_store sample_world NoTable)) in
  out = inr (lit "Error searching knowledge base: quota exceeded")
  /\ out <> inr msg_kb_not_found
  /\ out <> inr (msg_no_match (lit "aaa"))
  /\ (forall rows, out <> inr (format_results (lit "aaa") rows))
  /\ out' = inr (lit "No documents have been indexed yet. Use index_document first.")
  /\ out' <> inr msg_kb_not_found
  /\ out' <> inr (msg_no_match (lit "aaa"))
  /\ (forall rows, out' <> inr (format_results (lit "aaa") rows)).
Proof.
  cbv zeta.
  assert (Hne : forall a b : str, hd 0%N a <> hd 0%N b ->
                  @inr PyException str a <> inr b).
  { intros a b Hab [= Heq]. apply Hab. now rewrite Heq. }
  assert (Hne4 : forall a b : str, firstn 4 a <> firstn 4 b ->
                   @inr PyException str a <> inr b).
  { intros a b Hab [= Heq]. apply Hab. now rewrite Heq. }
  split; [vm_compute; reflexivity |].
  split; [apply Hne; vm_compute; discriminate |].
  split; [apply Hne; vm_compute; discriminate |].
  split; [intros rows; apply Hne; rewrite format_results_first; vm_compute; discriminate |].
  split; [vm_compute; reflexivity |].
  split; [apply Hne; vm_compute; discriminate |].
  split; [apply Hne4; vm_compute; discriminate |].
  intros rows. apply Hne. rewrite format_results_first. vm_compute. discriminate.
Qed.

(** C4 (amended): [search_knowledge_base] distinguishes five outcomes,
    decided by what the environment answers, call by call.  Nothing at the
    index location: the "Knowledge base not found ... index some documents
    first" message, with no further call.  The location exists but the table
    cannot be opened: the "No documents have been indexed yet" message.  The
    table search returns no row: the "No relevant information" message.  It
    returns rows: the ranked result list of exactly those rows, in the order
    returned.  Any other call raises: the "Error searching knowledge base"
    report with the exception's text.  The five results differ from each
    other already in their first four characters. *)
Theorem search_outcomes {W : Type} (h : handler W) (w : W) (query : str)
    (num_results : Z) :
  let out := result (run h (search_knowledge_base query num_results) w) in
  let not_found :=
    lit "Knowledge base not found. Please index some documents first using the index_document tool." in
  let nothing_indexed :=
    lit "No documents have been indexed yet. Use index_document first." in
  let no_match := lit "No relevant information found for query: '" ++ query ++ lit "'" in
  let error := fun e => lit "Error searching knowledge base: " ++ exc_str e in
  match h _ (path_exists KNOWLEDGE_DB_PATH) w with
  | (_, inl e) => out = inr (error e)
  | (_, inr false) =>
      out = inr not_found
      /\ length (trace (run h (search_knowledge_base query num_results) w)) = 1%nat
  | (w1, inr true) =>
      match h _ (embed_content EMBEDDING_MODEL query TASK_TYPE_QUERY EMBEDDING_DIMENSION) w1 with
      | (_, inl e) => out = inr (error e)
      | (w2, inr v) =>
          match h _ (lancedb_connect KNOWLEDGE_DB_PATH) w2 with
          | (_, inl e) => out = inr (error e)
          | (w3, inr _) =>
              match h _ (open_table KNOWLEDGE_DB_PATH DOCUMENTS) w3 with
              | (_, inl _) => out = inr nothing_indexed
              | (w4, inr _) =>
                  match h _ (table_search KNOWLEDGE_DB_PATH DOCUMENTS v num_results) w4 with
                  | (_, inl e) => out = inr (error e)
                  | (_, inr []) => out = inr no_match
                  | (_, inr (r :: rows)) => out = inr (ranked_listing query (r :: rows))
                  end
              end
          end
      end
  end
  /\ (firstn 4 not_found = lit "Know"
      /\ firstn 4 nothing_indexed = lit "No d"
      /\ firstn 4 no_match = lit "No r"
      /\ (forall rows, firstn 4 (ranked_listing query rows) = lit "Foun")
      /\ (forall e, firstn 4 (error e) = lit "Erro"))
  /\ (is_error_message not_found = false
      /\ is_error_message nothing_indexed = false
      /\ is_error_message no_match = false
      /\ (forall rows, is_error_message (ranked_listing query rows) = false)
      /\ (forall e, is_error_message (error e) = true)).
Proof.
  cbv zeta. split; [| split].
  - unfold search_knowledge_base, generate_embedding.
    cbn [model dimension EmbeddingGenerator_default].
    next_call h. destruct r as [e | [|]]; finish_run;
      [reflexivity | | split; reflexivity].
    next_call h. destruct r as [e | v]; finish_run; [reflexivity |].
    next_call h. destruct r as [e | []]; finish_run; [reflexivity |].
    next_call h. destruct r as [e | []]; finish_run; [reflexivity |].
    next_call h. destruct r as [e | found]; finish_run; [reflexivity |].
    destruct found as [|r rows]; finish_run; [reflexivity |].
    now rewrite format_results_ranked.
  - repeat split; try reflexivity.
    intros rows. unfold ranked_listing. cbn [PyStr.join].
    destruct (flat_map _ _); reflexivity.
  - repeat split; try reflexivity.
    intros rows. unfold ranked_listing. cbn [PyStr.join].
    destruct (flat_map _ _); reflexivity.
Qed.



(** C9: when a step of [index_document] before the store fails -- the
    file is missing, the converter raises or gives no usable text, no chunk
    comes out, or an embedding call raises -- the run makes no call to the
    store at all, hence no write, and any part of the environment that only
    store calls can change is as it was. *)
Theorem failed_ingest_is_atomic {W K : Type} (h : handler W) (kb : W -> K)
    (file_path : str) (w : W) :
  (forall X (c : call X) w', is_store_call c = false -> kb (fst (h X c w')) = kb w') ->
  Exists (fun e => pre_store_failure e = true) (trace (run h (index_document file_path) w)) ->
  no_store_call (trace (run h (index_document file_path) w))
  /\ no_store_write (trace (run h (index_document file_path) w))
  /\ kb (final (run h (index_document file_path) w)) = kb w.
Proof.
  intros Hframe Hfail.
  assert (Hno : no_store_call (trace (run h (index_document file_path) w))).
  { destruct (index_document_trace h file_path w) as [Hno | Hok]; [exact Hno |].
    exfalso. apply Exists_exists in Hfail as (e & Hin & He).
    rewrite Forall_forall in Hok. specialize (Hok e Hin). congruence. }
  split; [exact Hno |]. split.
  - unfold no_store_write, no_store_call in *.
    eapply Forall_impl; [| exact Hno]. intros [X c r]. cbn.
    destruct c; cbn; congruence.
  - now apply exec_frame.
Qed.

Lemma failed_ingest_is_atomic_witness :
  no_store_call (trace (run world_handler (index_document (lit "missing.pdf")) sample_world))
  /\ no_store_write (trace (run world_handler (index_document (lit "missing.pdf")) sample_world))
  /\ store (final (run world_handler (index_document (lit "missing.pdf")) sample_world))
     = store sample_world.
Proof.
  apply (failed_ingest_is_atomic world_handler store (lit "missing.pdf") sample_world).
  - exact world_handler_frame.
  - apply Exists_cons_hd. reflexivity.
Defined.

(** ** Ingestion in the reference environment *)

Lemma eqb_eq (a b : str) : PyStr.eqb a b = true <-> a = b.
Proof.
  unfold PyStr.eqb. destruct (list_eq_dec N.eq_dec a b); split; congruence.
Qed.

Lemma world_embed_each (w : World) (texts : list str) :
  forall log,
    final (exec world_handler
             (embed_each EmbeddingGenerator_default TASK_TYPE_DOCUMENT texts) w log) = w
    /\ result (exec world_handler
                 (embed_each EmbeddingGenerator_default TASK_TYPE_DOCUMENT texts) w log)
       = embeddings_via
           (fun t => embedding_of w EMBEDDING_MODEL t TASK_TYPE_DOCUMENT EMBEDDING_DIMENSION)
           texts.
Proof.
  induction texts as [|t rest IH]; intros log; [split; reflexivity |].
  cbn [embed_each embeddings_via]. rewrite exec_bind.
  unfold generate_embedding. rewrite exec_perform. unfold and_then.
  cbn [world_handler fst snd result final trace model dimension EmbeddingGenerator_default].
  destruct (embedding_of w EMBEDDING_MODEL t TASK_TYPE_DOCUMENT EMBEDDING_DIMENSION)
    as [e | v]; [split; reflexivity |].
  rewrite exec_bind. unfold and_then.
  destruct (IH (log ++ [mkEntry Vector
                          (embed_content EMBEDDING_MODEL t TASK_TYPE_DOCUMENT EMBEDDING_DIMENSION)
                          (inr v)])) as [Hf Hr].
  rewrite Hr, Hf.
  destruct (embeddings_via _ rest); split; try reflexivity; exact Hf.
Qed.

Lemma embeddings_via_length (f : str -> PyException + Vector) (texts : list str) :
  forall vs, embeddings_via f texts = inr vs -> length vs = length texts.
Proof.
  induction texts as [|t rest IH]; cbn; intros vs H.
  - now injection H as <-.
  - destruct (f t); [discriminate |].
    destruct (embeddings_via f rest) as [|vs']; [discriminate |].
    injection H as <-. cbn. f_equal. now apply IH.
Qed.

Lemma is_documents_here : is_documents KNOWLEDGE_DB_PATH DOCUMENTS = true.
Proof. reflexivity. Qed.

(** Writing rows: appended to the collection, which is created if need
    be. *)
Lemma world_store_records (w : World) (data : list Row) (log : list Entry) :
  final (exec world_handler (store_records data) w log)
    = set_store w (Table (stored_rows w ++ data))
  /\ result (exec world_handler (store_records data) w log) = inr tt.
Proof.
  unfold store_records, stored_rows.
  cbn [exec try_except bind perform world_handler].
  destruct (store w) eqn:Hs; cbn [exec try_except bind perform world_handler];
    rewrite ?Hs, ?is_documents_here; cbn; rewrite ?Hs, ?is_documents_here; cbn;
    split; reflexivity.
Qed.

Lemma world_index_document (w : World) (file_path : str) :
  match ingest_rows w file_path with
  | Some data =>
      final (run world_handler (index_document file_path) w)
        = set_store w (Table (stored_rows w ++ data))
      /\ exists n, result (run world_handler (index_document file_path) w)
                   = inr (msg_indexed file_path n)
  | None =>
      final (run world_handler (index_document file_path) w) = w
      /\ exists s, result (run world_handler (index_document file_path) w) = inr s
                   /\ is_error_message s = true
  end.
Proof.
  unfold ingest_rows, index_document, run.
  cbn [exec try_except bind perform world_handler].
  destruct (world_path_exists w file_path); cbn [negb];
    [| split; [reflexivity | eexists; split; reflexivity]].
  cbn [exec try_except bind perform world_handler].
  destruct (md_text w (fs_absolute w file_path)) as [e | text_content];
    cbn [exec try_except bind perform world_handler];
    [split; [reflexivity | eexists; split; reflexivity] |].
  destruct (no_meaningful_text text_content);
    cbn [exec try_except bind perform world_handler];
    [split; [reflexivity | eexists; split; reflexivity] |].
  destruct (chunk_text_total DocumentChunker_default _ (fs_absolute w file_path))
    as [|c cs] eqn:Hchunks;
    [split; [reflexivity | eexists; split; reflexivity] |].
  rewrite exec_try_except, exec_bind. unfold generate_batch_embeddings.
  rewrite exec_batch_loop. unfold map_result, and_then, or_else.
  cbn [result final trace].
  match goal with
  | |- context [exec world_handler (embed_each ?g ?tt ?txts) w ?log] =>
      destruct (world_embed_each w txts log) as [Hf Hr]
  end.
  rewrite Hr, Hf.
  destruct (embeddings_via _ (map text (c :: cs))) as [e | vs];
    cbn [result final trace exec];
    [split; [reflexivity | eexists; split; reflexivity] |].
  rewrite exec_bind. unfold and_then.
  match goal with
  | |- context [exec world_handler (store_records ?d) w ?log] =>
      destruct (world_store_records w d log) as [Hsf Hsr]
  end.
  rewrite Hsr, Hsf. cbn [exec result final]. split; [reflexivity |].
  eexists. reflexivity.
Qed.

Lemma chunk_text_total_source (self : DocumentChunker) (txt src : str) :
  Forall (fun c => source c = src) (chunk_text_total self txt src).
Proof.
  unfold chunk_text_total.
  destruct (chunk_text self txt src (S (length txt))) as [l |] eqn:Hl; [| constructor].
  apply chunk_text_returns in Hl as (m & _ & -> & _).
  unfold windows. apply Forall_map, Forall_forall. reflexivity.
Qed.

Lemma ingest_rows_shape (w : World) (file_path : str) (data : list Row) :
  ingest_rows w file_path = Some data ->
  world_path_exists w file_path = true
  /\ data <> []
  /\ Forall (fun r => row_source r = fs_absolute w file_path) data.
Proof.
  unfold ingest_rows.
  destruct (world_path_exists w file_path); [| discriminate].
  destruct (md_text w (fs_absolute w file_path)) as [e | tc]; [discriminate |].
  destruct (no_meaningful_text tc); [discriminate |]. cbv zeta.
  pose proof (chunk_text_total_source DocumentChunker_default
                (match tc with Some t => t | None => [] end)
                (fs_absolute w file_path)) as Hsrc.
  destruct (chunk_text_total _ _ _) as [|c cs]; [discriminate |].
  destruct (embeddings_via _ _) as [e | vs] eqn:Hvs; [discriminate |].
  intros [= <-]. apply embeddings_via_length in Hvs. rewrite length_map in Hvs.
  split; [reflexivity |]. split.
  - destruct vs as [|v vs]; [discriminate | cbn; discriminate].
  - apply Forall_map, Forall_forall. intros [c' v'] Hin. cbn.
    change (In (c', v') (combine (c :: cs) vs)) in Hin.
    apply in_combine_l in Hin. rewrite Forall_forall in Hsrc. now apply Hsrc.
Qed.





Lemma unique_keeps (sources seen : list str) (s : str) :
  In s sources -> existsb (PyStr.eqb s) seen = false -> In s (unique seen sources).
Proof.
  revert seen. induction sources as [|s0 rest IH]; intros seen Hin Hnew; [contradiction |].
  cbn. destruct (list_eq_dec N.eq_dec s0 s) as [-> | Hne].
  - rewrite Hnew. now left.
  - destruct Hin as [-> | Hin]; [contradiction |].
    destruct (existsb (PyStr.eqb s0) seen).
    + now apply IH.
    + right. apply IH; [exact Hin |]. cbn. rewrite Hnew, orb_false_r.
      destruct (PyStr.eqb s s0) eqn:E; [| reflexivity].
      apply eqb_eq in E. congruence.
Qed.




(** ** The tools at work in the sample environment *)

Example index_then_summary :
  let o1 := run world_handler (index_document (lit "notes.txt")) sample_world in
  let o2 := run world_handler (index_document (lit "notes.txt")) (final o1) in
  result o1 = inr (lit "Successfully indexed notes.txt: 1 chunks created and embedded")
  /\ store (final o1) = Table [sample_row]
  /\ store (final o2) = Table [sample_row; sample_row]
  /\ result (run world_handler get_indexed_documents (final o2))
     = inr (PyStr.join newline
              [ lit "Knowledge Base Statistics:";
                lit "- Total chunks: 2";
                lit "- Indexed documents: 1";
                [];
                lit "Documents:";
                [32%N; 32%N; 8226%N; 32%N] ++ lit "notes.txt (2 chunks)" ]).
Proof.
  cbv zeta. repeat split; vm_compute; reflexivity.
Qed.

Example search_after_index :
  let w0 := set_store sample_world NoTable in
  let w1 := final (run world_handler (index_document (lit "notes.txt")) sample_world) in
  result (run world_handler (search_knowledge_base (lit "aaa") 5) w0)
    = inr (lit "No documents have been indexed yet. Use index_document first.")
  /\ result (run world_handler (search_knowledge_base (lit "aaa") 0) w1)
     = inr (lit "No relevant information found for query: 'aaa'")
  /\ result (run world_handler (search_knowledge_base (lit "aaa") 5) w1)
     = inr (PyStr.join newline
              [ lit "Found 1 relevant chunks for 'aaa':" ++ newline;
                newline ++ lit "--- Result 1 (from notes.txt, chunk 0) ---";
                repeat 97%N 150 ]).
Proof.
  cbv zeta. repeat split; vm_compute; reflexivity.
Qed.

Example index_failures :
  result (run world_handler (index_document (lit "missing.pdf")) sample_world)
    = inr (lit "Error: File missing.pdf does not exist")
  /\ result (run (fun X c w =>
                    match c in call X return World * (PyException + X) with
                    | embed_content _ _ _ _ => (w, inl (Exception (lit "quota exceeded")))
                    | c' => world_handler _ c' w
                    end)
               (index_document (lit "notes.txt")) sample_world)
     = inr (lit "Error indexing document: quota exceeded").
Proof.
  split; vm_compute; reflexivity.
Qed.

(** * Further properties *)

(** ** Trimming and slicing *)

Lemma lstrip_split (s : str) :
  exists pre, s = pre ++ PyStr.lstrip s /\ forallb PyStr.isspace pre = true.
Proof.
  induction s as [|c s (pre & Hs & Hpre)]; [now exists [] |].
  cbn. destruct (PyStr.isspace c) eqn:Hc.
  - exists (c :: pre). cbn. rewrite Hc, Hpre. split; [now f_equal | reflexivity].
  - now exists [].
Qed.

Lemma lstrip_head (s : str) (c : N) :
  hd_error (PyStr.lstrip s) = Some c -> PyStr.isspace c = false.
Proof.
  induction s as [|a s IH]; cbn; [discriminate |].
  destruct (PyStr.isspace a) eqn:Ha; [exact IH |].
  cbn. now intros [= <-].
Qed.

Lemma rstrip_split (s : str) :
  exists post, s = PyStr.rstrip s ++ post /\ forallb PyStr.isspace post = true.
Proof.
  destruct (lstrip_split (rev s)) as (pre & Hs & Hpre).
  exists (rev pre). unfold PyStr.rstrip. split.
  - rewrite <- rev_app_distr, <- Hs. now rewrite rev_involutive.
  - rewrite forallb_forall in *. intros x Hx. apply Hpre. now apply in_rev.
Qed.

Lemma strip_split (s : str) :
  exists pre post,
    s = pre ++ PyStr.strip s ++ post
    /\ forallb PyStr.isspace pre = true /\ forallb PyStr.isspace post = true.
Proof.
  destruct (lstrip_split s) as (pre & Hs & Hpre).
  destruct (rstrip_split (PyStr.lstrip s)) as (post & Hl & Hpost).
  exists pre, post. unfold PyStr.strip. now rewrite <- Hl.
Qed.

Lemma strip_trimmed (s : str) : trimmed (PyStr.strip s).
Proof.
  split; intros c Hc.
  - destruct (rstrip_split (PyStr.lstrip s)) as (post & Hl & _).
    fold (PyStr.strip s) in Hl. apply (lstrip_head s). rewrite Hl.
    destruct (PyStr.strip s); [discriminate | exact Hc].
  - unfold PyStr.strip, PyStr.rstrip in Hc. rewrite rev_involutive in Hc.
    now apply lstrip_head in Hc.
Qed.

Lemma strip_length (s : str) : len (PyStr.strip s) <= len s.
Proof.
  destruct (strip_split s) as (pre & post & Hs & _).
  unfold PyStr.len. rewrite Hs at 2. rewrite !length_app. lia.
Qed.

Lemma strip_spaces (s : str) : forallb PyStr.isspace s = true -> PyStr.strip s = [].
Proof.
  intros Hs. unfold PyStr.strip.
  replace (PyStr.lstrip s) with (@nil N); [reflexivity |].
  induction s as [|c s IH]; [reflexivity |].
  cbn in *. apply andb_true_iff in Hs as [-> Hs]. now apply IH.
Qed.

Lemma slice_length (s : str) (a b : Z) : len (PyStr.slice s a b) <= len s.
Proof.
  unfold PyStr.slice, PyStr.len.
  rewrite length_firstn, length_skipn. lia.
Qed.

Lemma slice_width (s : str) (a w : Z) :
  0 <= a -> 0 <= w -> len (PyStr.slice s a (a + w)) <= w.
Proof.
  intros Ha Hw. unfold PyStr.slice, PyStr.len, PyStr.slice_bound.
  rewrite length_firstn.
  destruct (Z.ltb_spec a 0), (Z.ltb_spec (a + w) 0); lia.
Qed.

Lemma slice_incl (s : str) (a b : Z) (c : N) : In c (PyStr.slice s a b) -> In c s.
Proof.
  unfold PyStr.slice. intros H.
  set (lo := PyStr.slice_bound (len s) a) in *.
  set (hi := PyStr.slice_bound (len s) b) in *.
  rewrite <- (firstn_skipn (Z.to_nat lo) s). apply in_or_app. right.
  rewrite <- (firstn_skipn (Z.to_nat (hi - lo)) (skipn (Z.to_nat lo) s)).
  apply in_or_app. now left.
Qed.

(** A slice starting inside the string sits in it at its start offset. *)
Lemma slice_located (s : str) (a b : Z) :
  0 <= a <= len s ->
  exists after,
    s = firstn (Z.to_nat a) s ++ PyStr.slice s a b ++ after
    /\ len (firstn (Z.to_nat a) s) = a.
Proof.
  intros Ha. unfold PyStr.slice, PyStr.slice_bound, PyStr.len in *.
  destruct (Z.ltb_spec a 0); [lia |].
  rewrite (Z.min_l a) by lia.
  exists (skipn (Z.to_nat ((if b <? 0 then Z.max 0 (b + Z.of_nat (length s))
                            else Z.min b (Z.of_nat (length s))) - a))
                (skipn (Z.to_nat a) s)).
  split.
  - now rewrite !firstn_skipn.
  - rewrite length_firstn. lia.
Qed.

(** ** More about [DocumentChunker.chunk_text] *)

Lemma returned_windows (self : DocumentChunker) (txt src : str) (fuel : nat) (l : list Chunk)
    (c : Chunk) :
  chunk_text self txt src fuel = Some l -> In c l ->
  exists k, c = window self txt src k /\ emits self txt k = true.
Proof.
  intros Hl Hc. apply chunk_text_returns in Hl as (m & _ & -> & _ & Hall).
  unfold windows in Hc. apply in_map_iff in Hc as (k & <- & Hk).
  apply in_seq in Hk. exists k. split; [reflexivity |]. apply Hall. lia.
Qed.

(** X1: a text of fewer than 100 characters, or made of whitespace only,
    yields no chunk, whatever the chunk size and overlap; the loop returns
    at its first test. *)
Theorem short_text_no_chunks (self : DocumentChunker) (txt src : str) (fuel : nat) :
  len txt < 100 \/ forallb PyStr.isspace txt = true ->
  chunk_text self txt src (S fuel) = Some [].
Proof.
  intros Hshort.
  apply (chunk_text_stops_at self txt src 0); [| intros j Hj; lia | lia].
  unfold emits. apply andb_false_iff. right. apply negb_false_iff, Z.ltb_lt.
  destruct Hshort as [Hlen | Hsp].
  - match goal with
    | |- len (PyStr.strip ?w) < 100 =>
        pose proof (strip_length w);
        match w with PyStr.slice _ ?a ?b => pose proof (slice_length txt a b) end
    end.
    lia.
  - rewrite strip_spaces; [reflexivity |].
    rewrite forallb_forall in *. intros c Hc. apply Hsp.
    now apply slice_incl in Hc.
Qed.

Lemma short_text_no_chunks_witness :
  chunk_text {| chunk_size := 150; overlap := 30 |} (lit "too short to index") [] 1 = Some [].
Proof.
  apply (short_text_no_chunks {| chunk_size := 150; overlap := 30 |}
           (lit "too short to index") [] 0).
  left. reflexivity.
Defined.

(** X2: every chunk of a returned list carries the given source and a
    text of at least 100 characters with no whitespace at either end; for
    0 <= overlap < chunk_size the text has at most chunk_size characters,
    so a chunker with chunk_size below 100 returns no chunk at all. *)
Theorem chunk_texts_trimmed_and_sized (self : DocumentChunker) (txt src : str)
    (fuel : nat) (l : list Chunk) :
  chunk_text self txt src fuel = Some l ->
  Forall (fun c => source c = src /\ 100 <= len (text c) /\ trimmed (text c)) l
  /\ (0 <= overlap self < chunk_size self ->
      Forall (fun c => len (text c) <= chunk_size self) l
      /\ (chunk_size self < 100 -> l = [])).
Proof.
  intros Hl.
  assert (Hsize : 0 <= overlap self < chunk_size self ->
                  Forall (fun c => len (text c) <= chunk_size self) l).
  { intros Hpre. apply Forall_forall. intros c Hc.
    destruct (returned_windows _ _ _ _ _ _ Hl Hc) as (k & -> & _).
    cbn [window text]. etransitivity; [apply strip_length |].
    apply slice_width; [unfold stride; nia | lia]. }
  split.
  - apply Forall_forall. intros c Hc.
    destruct (returned_windows _ _ _ _ _ _ Hl Hc) as (k & -> & Hk).
    cbn [window text source]. split; [reflexivity |]. split; [| apply strip_trimmed].
    unfold emits in Hk. apply andb_true_iff in Hk as [_ Hk].
    apply negb_true_iff, Z.ltb_ge in Hk. exact Hk.
  - intros Hpre. split; [now apply Hsize |].
    intros Hsmall. destruct l as [|c l']; [reflexivity |]. exfalso.
    specialize (Hsize Hpre). apply Forall_inv in Hsize.
    destruct (returned_windows _ _ _ _ _ c Hl (or_introl eq_refl)) as (k & -> & Hk).
    unfold emits in Hk. apply andb_true_iff in Hk as [_ Hk].
    apply negb_true_iff, Z.ltb_ge in Hk. cbn [window text] in Hsize. lia.
Qed.

Lemma chunk_texts_trimmed_and_sized_witness :
  Forall (fun c => source c = lit "a.txt" /\ 100 <= len (text c) /\ trimmed (text c))
         (chunk_text_total {| chunk_size := 150; overlap := 30 |}
            (repeat 97%N 300) (lit "a.txt")).
Proof.
  apply (proj1 (chunk_texts_trimmed_and_sized {| chunk_size := 150; overlap := 30 |}
                  (repeat 97%N 300) (lit "a.txt") 301 _ eq_refl)).
Defined.

(** X3: for 0 <= overlap < chunk_size, the text of every returned chunk
    can be found in the input at the recorded position: the input is
    [before ++ pre ++ text ++ post ++ after] with [before] of length
    char_start, [pre] and [post] whitespace, and [pre ++ text ++ post] the
    window from char_start to char_end cut at the end of the input. *)
Theorem chunk_text_located (self : DocumentChunker) (txt src : str) (fuel : nat)
    (l : list Chunk) (c : Chunk) :
  0 <= overlap self < chunk_size self ->
  chunk_text self txt src fuel = Some l -> In c l ->
  0 <= char_start c < len txt
  /\ exists before pre post after,
       txt = before ++ pre ++ text c ++ post ++ after
       /\ len before = char_start c
       /\ len (pre ++ text c ++ post) = Z.min (char_end c) (len txt) - char_start c
       /\ forallb PyStr.isspace pre = true
       /\ forallb PyStr.isspace post = true.
Proof.
  intros Hpre Hl Hc.
  destruct (returned_windows _ _ _ _ _ _ Hl Hc) as (k & -> & Hk).
  apply emits_inside in Hk. cbn [window char_start char_end text].
  set (s := Z.of_nat k * stride self) in *.
  assert (Hs : 0 <= s) by (unfold s, stride; nia).
  split; [lia |].
  destruct (slice_located txt s (s + chunk_size self)) as (after & Htxt & Hbefore); [lia |].
  destruct (strip_split (PyStr.slice txt s (s + chunk_size self)))
    as (pre & post & Hwin & Hsp & Hsq).
  exists (firstn (Z.to_nat s) txt), pre, post, after.
  split; [| split; [exact Hbefore | split; [| now split]]].
  - rewrite Htxt at 1. rewrite Hwin at 1. now rewrite <- !app_assoc.
  - rewrite <- Hwin. unfold PyStr.slice, PyStr.slice_bound, PyStr.len in *.
    rewrite length_firstn, length_skipn.
    destruct (Z.ltb_spec s 0), (Z.ltb_spec (s + chunk_size self) 0); lia.
Qed.

Lemma chunk_text_located_witness :
  Forall (fun c => 0 <= char_start c < 300)
         (chunk_text_total {| chunk_size := 150; overlap := 30 |} (repeat 97%N 300) []).
Proof.
  apply Forall_forall. intros c Hc.
  apply (chunk_text_located {| chunk_size := 150; overlap := 30 |}
           (repeat 97%N 300) [] 301
           (chunk_text_total {| chunk_size := 150; overlap := 30 |} (repeat 97%N 300) []) c);
    [cbn; lia | reflexivity | exact Hc].
Defined.

Lemma windows_cover (self : DocumentChunker) (txt src : str) (m : nat) (p : Z) :
  0 <= overlap self < chunk_size self ->
  (0 < m)%nat ->
  0 <= p < Z.of_nat (m - 1) * stride self + chunk_size self ->
  exists c, In c (windows self txt src m) /\ char_start c <= p < char_end c.
Proof.
  intros Hpre Hm Hp.
  assert (Hst : 0 < stride self <= chunk_size self) by (unfold stride; lia).
  set (q := Z.min (p / stride self) (Z.of_nat (m - 1))).
  assert (Hq : 0 <= q <= Z.of_nat (m - 1)).
  { unfold q. split; [| apply Z.le_min_r].
    apply Z.min_glb; [apply Z.div_pos | ]; lia. }
  exists (window self txt src (Z.to_nat q)). split.
  - unfold windows. apply in_map, in_seq. lia.
  - cbn [window char_start char_end]. rewrite Z2Nat.id by lia.
    pose proof (Z.mul_div_le p (stride self) (proj1 Hst)) as Hlow.
    pose proof (Z.mul_succ_div_gt p (stride self) (proj1 Hst)) as Hhigh.
    unfold q in *. destruct (Z.min_spec (p / stride self) (Z.of_nat (m - 1)))
      as [[Hlt ->] | [Hge ->]]; nia.
Qed.

(** X4: for 0 <= overlap < chunk_size, each chunk ends exactly overlap
    characters after the next one starts, and the windows leave no gap:
    every offset from 0 up to the last chunk's char_end lies in the window
    of some returned chunk. *)
Theorem chunks_overlap_and_cover (self : DocumentChunker) (txt src : str) (fuel : nat)
    (l : list Chunk) :
  0 <= overlap self < chunk_size self ->
  chunk_text self txt src fuel = Some l ->
  (forall i c d, nth_error l i = Some c -> nth_error l (S i) = Some d ->
     char_end c - char_start d = overlap self)
  /\ (forall last p, nth_error l (length l - 1) = Some last ->
        0 <= p < char_end last ->
        exists c, In c l /\ char_start c <= p < char_end c).
Proof.
  intros Hpre Hl. apply chunk_text_returns in Hl as (m & _ & -> & _ & _). split.
  - intros i c d Hc Hd.
    apply windows_nth_inv in Hc as [_ ->]. apply windows_nth_inv in Hd as [_ ->].
    unfold window, stride. cbn [char_start char_end]. lia.
  - intros last p Hlast Hp. rewrite windows_length in Hlast.
    apply windows_nth_inv in Hlast as [Hm ->]. cbn [window char_end] in Hp.
    apply windows_cover; [exact Hpre | lia | exact Hp].
Qed.

Lemma chunks_overlap_and_cover_witness :
  exists c d,
    nth_error (chunk_text_total {| chunk_size := 150; overlap := 30 |} (repeat 97%N 300) [])
              0 = Some c
    /\ nth_error (chunk_text_total {| chunk_size := 150; overlap := 30 |} (repeat 97%N 300) [])
                 1 = Some d
    /\ char_end c - char_start d = 30.
Proof.
  destruct (chunks_overlap_and_cover {| chunk_size := 150; overlap := 30 |}
              (repeat 97%N 300) [] 301
              (chunk_text_total {| chunk_size := 150; overlap := 30 |} (repeat 97%N 300) []))
    as [Hov _]; [cbn; lia | reflexivity |].
  eexists. eexists. split; [reflexivity |]. split; [reflexivity |].
  apply (Hov 0%nat); reflexivity.
Defined.

(** X5: the scan ends at the first window whose trimmed text is shorter
    than 100 characters: if window number k is that short, the call returns
    -- within k + 1 loop tests, for any parameters -- a list of at most k
    chunks, and with overlap < chunk_size none of them starts at or after
    that window, however much text follows it. *)
Theorem short_window_ends_scan (self : DocumentChunker) (txt src : str) (k : nat) :
  len (PyStr.strip (PyStr.slice txt (Z.of_nat k * (chunk_size self - overlap self))
                      (Z.of_nat k * (chunk_size self - overlap self) + chunk_size self)))
    < 100 ->
  exists l,
    (forall fuel, (k < fuel)%nat -> chunk_text self txt src fuel = Some l)
    /\ (forall fuel l', chunk_text self txt src fuel = Some l' -> l' = l)
    /\ (length l <= k)%nat
    /\ (overlap self < chunk_size self ->
        Forall (fun c => char_start c < Z.of_nat k * (chunk_size self - overlap self)) l).
Proof.
  intros Hshort.
  assert (Ek : emits self txt k = false).
  { unfold emits, stride. apply andb_false_iff. right.
    now apply negb_false_iff, Z.ltb_lt. }
  destruct (first_stop self txt k Ek) as (m & Hm & Em & Hall).
  exists (windows self txt src m). split; [| split; [| split]].
  - intros fuel Hfuel. apply chunk_text_stops_at; [exact Em | exact Hall | lia].
  - intros fuel l' Hl'.
    apply chunk_text_returns in Hl' as (m' & _ & -> & Em' & Hall').
    now rewrite (first_stop_unique self txt m' m).
  - now rewrite windows_length.
  - intros Hpre. unfold windows. apply Forall_map, Forall_forall. intros j Hj.
    apply in_seq in Hj. cbn [window char_start]. unfold stride. nia.
Qed.

Lemma short_window_ends_scan_witness :
  exists l,
    chunk_text {| chunk_size := 150; overlap := 30 |}
      (repeat 97%N 150 ++ repeat 32%N 200 ++ repeat 97%N 400) [] 2 = Some l
    /\ (length l <= 1)%nat.
Proof.
  destruct (short_window_ends_scan {| chunk_size := 150; overlap := 30 |}
              (repeat 97%N 150 ++ repeat 32%N 200 ++ repeat 97%N 400) [] 1)
    as (l & Hrun & _ & Hlen & _).
  - vm_compute. reflexivity.
  - exists l. split; [apply Hrun; lia | exact Hlen].
Defined.

(** X6: with overlap equal to chunk_size the start offset never moves: on
    a non-empty text whose first window keeps at least 100 characters the
    loop never returns, and after n iterations it holds n chunks, all
    starting at 0. *)
Theorem zero_stride_never_returns (self : DocumentChunker) (txt src : str) (n : nat) :
  overlap self = chunk_size self ->
  0 < len txt ->
  100 <= len (PyStr.strip (PyStr.slice txt 0 (chunk_size self))) ->
  chunk_text self txt src n = None
  /\ exists st,
       chunk_run self txt src n loop_init = inl st
       /\ length (chunks st) = n
       /\ start st = 0
       /\ Forall (fun c => char_start c = 0) (chunks st).
Proof.
  intros Hzero Hlen Hbig.
  assert (Hst : stride self = 0) by (unfold stride; lia).
  assert (Hall : forall k, emits self txt k = true).
  { intros k. unfold emits. rewrite Hst, Z.mul_0_r, Z.add_0_l.
    apply andb_true_iff. split; [now apply Z.ltb_lt |].
    now apply negb_true_iff, Z.ltb_ge. }
  assert (Hrun : chunk_run self txt src n loop_init = inl (state_after self txt src n)).
  { destruct (run_after self txt src n 0) as [[Hrun _] | (m & _ & _ & Em & _)].
    - exact Hrun.
    - rewrite Hall in Em. discriminate. }
  split; [unfold chunk_text; now rewrite Hrun |].
  exists (state_after self txt src n). split; [exact Hrun |].
  cbn [state_after chunks start]. rewrite windows_length, Hst, Z.mul_0_r.
  repeat split. unfold windows. apply Forall_map, Forall_forall. intros k _.
  cbn [window char_start]. rewrite Hst. apply Z.mul_0_r.
Qed.

Lemma zero_stride_never_returns_witness :
  chunk_text {| chunk_size := 150; overlap := 150 |} (repeat 97%N 400) [] 1000 = None.
Proof.
  apply (zero_stride_never_returns {| chunk_size := 150; overlap := 150 |}
           (repeat 97%N 400) [] 1000); vm_compute; congruence.
Defined.

(** X7: with overlap above chunk_size the start offset moves backwards and
    the slices wrap around the end of the text, yet the loop returns: within
    max(0, chunk_size + len(text)) + 2 tests, and every chunk after the
    first carries a negative char_start. *)
Theorem negative_stride_returns (self : DocumentChunker) (txt src : str) :
  chunk_size self < overlap self ->
  exists l,
    (forall fuel, (Z.to_nat (Z.max 0 (chunk_size self + len txt)) + 1 < fuel)%nat ->
       chunk_text self txt src fuel = Some l)
    /\ (forall i c, nth_error l (S i) = Some c -> char_start c < 0).
Proof.
  intros Hneg.
  set (K := (Z.to_nat (Z.max 0 (chunk_size self + len txt)) + 1)%nat).
  assert (EK : emits self txt K = false).
  { unfold emits. apply andb_false_iff. right. apply negb_false_iff, Z.ltb_lt.
    set (s := Z.of_nat K * stride self).
    assert (Hs : s + chunk_size self + len txt <= 0 /\ s < 0).
    { unfold s, stride, K. pose proof (Zle_0_nat (length txt)). unfold PyStr.len in *. nia. }
    replace (PyStr.slice txt s (s + chunk_size self)) with (@nil N); [reflexivity |].
    unfold PyStr.slice, PyStr.slice_bound.
    destruct (Z.ltb_spec s 0); [| lia].
    destruct (Z.ltb_spec (s + chunk_size self) 0).
    - replace (Z.to_nat _) with 0%nat by lia. reflexivity.
    - pose proof (Zle_0_nat (length txt)). unfold PyStr.len in *.
      replace (Z.to_nat (_ - _)) with 0%nat by lia. reflexivity. }
  destruct (first_stop self txt K EK) as (m & Hm & Em & Hall).
  exists (windows self txt src m). split.
  - intros fuel Hfuel. apply chunk_text_stops_at; auto. fold K in Hfuel. lia.
  - intros i c Hc. apply windows_nth_inv in Hc as [_ ->].
    cbn [window char_start]. unfold stride. nia.
Qed.

Lemma negative_stride_returns_witness :
  exists l,
    chunk_text {| chunk_size := 150; overlap := 400 |} (repeat 97%N 400) [] 1000 = Some l
    /\ length l = 2%nat
    /\ forall i c, nth_error l (S i) = Some c -> char_start c < 0.
Proof.
  destruct (negative_stride_returns {| chunk_size := 150; overlap := 400 |}
              (repeat 97%N 400) []) as (l & Hrun & Hneg).
  - reflexivity.
  - exists l.
    assert (Hl : chunk_text {| chunk_size := 150; overlap := 400 |} (repeat 97%N 400) [] 1000
                 = Some l) by (apply Hrun; vm_compute; lia).
    split; [exact Hl |]. split; [| exact Hneg].
    vm_compute in Hl. injection Hl as <-. reflexivity.
Defined.

(** ** More about [EmbeddingGenerator] *)

Lemma embed_each_calls {W : Type} (h : handler W) (self : EmbeddingGenerator)
    (task_type : str) (texts : list str) :
  forall w log,
    exists k t,
      (k <= length texts)%nat
      /\ trace (exec h (embed_each self task_type texts) w log) = log ++ t
      /\ map embed_request t
         = map (fun x => Some (model self, x, task_type, dimension self)) (firstn k texts)
      /\ match result (exec h (embed_each self task_type texts) w log) with
         | inr vs =>
             k = length texts /\ length vs = k
             /\ Forall (fun y => raise_of y = None) t
         | inl e =>
             exists pre x, t = pre ++ [x] /\ raise_of x = Some e
                           /\ Forall (fun y => raise_of y = None) pre
         end.
Proof.
  induction texts as [|t0 rest IH]; intros w log.
  - exists 0%nat, []. cbn. rewrite app_nil_r. repeat split; constructor.
  - cbn [embed_each generate_embedding perform bind exec].
    set (c := embed_content (model self) t0 task_type (dimension self)).
    destruct (h Vector c w) as [w' [e | v]]; cbn [bind exec].
    + exists 1%nat, [mkEntry Vector c (inl e)]. cbn.
      split; [lia |]. split; [reflexivity |]. split; [reflexivity |].
      exists [], (mkEntry Vector c (inl e)). repeat split. constructor.
    + rewrite exec_bind. unfold and_then.
      destruct (IH w' (log ++ [mkEntry Vector c (inr v)])) as (k & t & Hk & Htr & Hreq & Hres).
      exists (S k), (mkEntry Vector c (inr v) :: t).
      destruct (result (exec h (embed_each self task_type rest) w' _)) as [e | vs];
        cbn [exec trace result].
      * rewrite Htr, <- app_assoc. split; [cbn; lia |]. split; [reflexivity |].
        split; [cbn; now rewrite Hreq |].
        destruct Hres as (pre & x & -> & Hx & Hpre).
        exists (mkEntry Vector c (inr v) :: pre), x. split; [reflexivity |].
        split; [exact Hx |]. now constructor.
      * rewrite Htr, <- app_assoc. split; [cbn; lia |]. split; [reflexivity |].
        split; [cbn; now rewrite Hreq |].
        destruct Hres as (-> & Hlen & Hok). cbn. repeat split; [now rewrite Hlen |].
        now constructor.
Qed.

(** X8: [generate_batch_embeddings] calls the service once per text, in
    input order, each time with the generator's model and dimension and the
    given task type, and stops at the first call that raises: the calls made
    are those for a prefix of the texts; when it returns, the prefix is the
    whole list and no call raised; when it raises, it raises the exception of
    the last call made, all earlier calls having succeeded. *)
Theorem batch_calls_in_order {W : Type} (h : handler W) (self : EmbeddingGenerator)
    (texts : list str) (task_type : str) (w : W) :
  exists k,
    (k <= length texts)%nat
    /\ map embed_request (trace (run h (generate_batch_embeddings self texts task_type) w))
       = map (fun x => Some (model self, x, task_type, dimension self)) (firstn k texts)
    /\ match result (run h (generate_batch_embeddings self texts task_type) w) with
       | inr vs =>
           k = length texts /\ length vs = k
           /\ Forall (fun y => raise_of y = None)
                     (trace (run h (generate_batch_embeddings self texts task_type) w))
       | inl e =>
           exists pre x,
             trace (run h (generate_batch_embeddings self texts task_type) w) = pre ++ [x]
             /\ raise_of x = Some e
             /\ Forall (fun y => raise_of y = None) pre
       end.
Proof.
  unfold run, generate_batch_embeddings. rewrite exec_batch_loop.
  destruct (embed_each_calls h self task_type texts w []) as (k & t & Hk & Htr & Hreq & Hres).
  unfold map_result. cbn [trace result]. cbn [app] in Htr. rewrite Htr.
  exists k. split; [exact Hk |]. split; [exact Hreq |].
  destruct (result (exec h (embed_each self task_type texts) w [])) as [e | vs].
  - exact Hres.
  - destruct Hres as (Hkl & Hlen & Hok). cbn [app]. now repeat split.
Qed.

(** ** More about the three tools *)

Lemma store_call_not_embed (e : Entry) :
  is_store_call (entry_call e) = true -> embed_request e = None.
Proof.
  destruct e as [X c r]. unfold embed_request. cbn. destruct c; cbn; congruence.
Qed.

Lemma default_chunk_texts (txt src : str) :
  Forall (fun c => 100 <= len (text c) <= CHUNK_SIZE_CHARS /\ trimmed (text c))
         (chunk_text_total DocumentChunker_default txt src).
Proof.
  unfold chunk_text_total.
  destruct (chunk_text DocumentChunker_default txt src (S (length txt))) as [l |] eqn:Hl;
    [| constructor].
  apply Forall_forall. intros c Hc.
  destruct (returned_windows _ _ _ _ _ _ Hl Hc) as (k & -> & Hk).
  cbn [window text]. unfold emits in Hk. apply andb_true_iff in Hk as [_ Hk].
  apply negb_true_iff, Z.ltb_ge in Hk.
  split; [split; [exact Hk |] | apply strip_trimmed].
  etransitivity; [apply strip_length |].
  apply (slice_width txt (Z.of_nat k * stride DocumentChunker_default) CHUNK_SIZE_CHARS).
  - change (stride DocumentChunker_default) with 1800. lia.
  - discriminate.
Qed.

Section MoreToolFacts.

Context {W : Type} (h : handler W).

Lemma exec_store_records_calls (data : list Row) (w : W) (log : list Entry) :
  exists t,
    trace (exec h (store_records data) w log) = log ++ t
    /\ Forall (fun e => is_store_call (entry_call e) = true) t.
Proof.
  unfold store_records.
  next_call h. destruct r as [e | []]; finish_run;
    [eexists; split; [reflexivity | repeat constructor] |].
  next_call h. destruct r as [e | []]; finish_run.
  - next_call h. destruct r as [e' | []]; finish_run;
      rewrite <- !app_assoc; eexists; split; try reflexivity; repeat constructor.
  - next_call h. destruct r as [e | []]; finish_run.
    + next_call h. destruct r as [e' | []]; finish_run;
        rewrite <- !app_assoc; eexists; split; try reflexivity; repeat constructor.
    + rewrite <- !app_assoc; eexists; split; try reflexivity; repeat constructor.
Qed.

(** The calls of [index_document], in order: file-system and conversion
    calls, then embedding requests for chunk texts, then store calls. *)
Lemma index_document_calls (fp : str) (w : W) :
  exists pre emb sto,
    trace (run h (index_document fp) w) = pre ++ emb ++ sto
    /\ Forall (fun e => embed_request e = None /\ is_store_call (entry_call e) = false) pre
    /\ Forall (fun e => is_store_call (entry_call e) = false
                        /\ exists t, embed_request e
                                     = Some (EMBEDDING_MODEL, t, TASK_TYPE_DOCUMENT,
                                             EMBEDDING_DIMENSION)
                                     /\ 100 <= len t <= CHUNK_SIZE_CHARS /\ trimmed t) emb
    /\ Forall (fun e => is_store_call (entry_call e) = true) sto.
Proof.
  unfold index_document.
  next_call h. destruct r as [e | [|]]; finish_run;
    [eexists [_], [], []; repeat split; repeat constructor | |
     eexists [_], [], []; repeat split; repeat constructor].
  next_call h. destruct r as [e | abs_path]; finish_run;
    [eexists [_; _], [], []; repeat split; repeat constructor |].
  next_call h. destruct r as [e | text_content]; finish_run;
    [eexists [_; _; _], [], []; repeat split; repeat constructor |].
  destruct (no_meaningful_text text_content) eqn:Htext; finish_run;
    [eexists [_; _; _], [], []; repeat split; repeat constructor |].
  next_call h. destruct r as [e | src]; finish_run;
    [eexists [_; _; _; _], [], []; repeat split; repeat constructor |].
  set (t := match text_content with Some t => t | None => [] end).
  pose proof (default_chunk_texts t src) as Htexts.
  destruct (chunk_text_total DocumentChunker_default t src) as [|c cs] eqn:Hchunks;
    finish_run; [eexists [_; _; _; _], [], []; repeat split; repeat constructor |].
  rewrite !exec_try_except, !exec_bind. unfold generate_batch_embeddings.
  rewrite exec_batch_loop.
  match goal with
  | |- context [exec h (embed_each ?g ?tt ?txts) ?w' ?log] =>
      destruct (embed_each_calls h g tt txts w' log) as (k & tr & Hk & Htr & Hreq & _);
      destruct (exec_embed_each h g tt txts w' log) as (tr' & Htr' & Hns & _);
      destruct (exec h (embed_each g tt txts) w' log) as [fw ftr res] eqn:Hb
  end.
  cbn [result trace final] in Htr, Htr'. subst ftr.
  apply app_inv_head in Htr'. subst tr'.
  assert (Hemb : Forall (fun e => is_store_call (entry_call e) = false
                   /\ exists t, embed_request e
                                = Some (EMBEDDING_MODEL, t, TASK_TYPE_DOCUMENT,
                                        EMBEDDING_DIMENSION)
                                /\ 100 <= len t <= CHUNK_SIZE_CHARS /\ trimmed t) tr).
  { apply Forall_forall. intros y Hy. split.
    - rewrite Forall_forall in Hns. now apply Hns.
    - assert (Hin : In (embed_request y) (map embed_request tr)) by now apply in_map.
      rewrite Hreq in Hin. apply in_map_iff in Hin as (x & Hx & Hxin).
      exists x. split; [now symmetry |].
      assert (Hxin' : In x (map text (c :: cs))).
      { rewrite <- (firstn_skipn k (map text (c :: cs))). apply in_or_app. now left. }
      apply in_map_iff in Hxin' as (ch & <- & Hch).
      rewrite Forall_forall in Htexts. now apply Htexts. }
  unfold map_result, and_then, or_else. cbn [result trace final].
  destruct res as [e | vs]; cbn [result trace final]; finish_run.
  - eexists [_; _; _; _], tr, []. rewrite app_nil_r.
    split; [reflexivity |]. repeat split; try assumption; repeat constructor.
  - rewrite exec_bind. unfold and_then.
    match goal with
    | |- context [exec h (store_records ?d) ?w' ?log] =>
        destruct (exec_store_records_calls d w' log) as (ts & Hts & Hsto);
        destruct (exec h (store_records d) w' log) as [sw str [e | []]]
    end; cbn [result trace final] in *; subst str; finish_run.
    all: eexists [_; _; _; _], tr, ts; cbn [app].
    all: split; [reflexivity |]; repeat split; try assumption; repeat constructor.
Qed.

End MoreToolFacts.

(** X9: the two sides of retrieval are embedded differently.  Every
    embedding request [index_document] makes asks for a RETRIEVAL_DOCUMENT
    embedding of a trimmed chunk text of 100 to 2000 characters;
    [search_knowledge_base] makes at most one request, a RETRIEVAL_QUERY
    embedding of the query as given; [get_indexed_documents] makes none.
    All use the configured model and dimension. *)
Theorem embedding_requests_by_tool {W : Type} (h : handler W) (w : W) :
  (forall file_path,
     Forall (fun e => forall r, embed_request e = Some r ->
               exists t, r = (EMBEDDING_MODEL, t, TASK_TYPE_DOCUMENT, EMBEDDING_DIMENSION)
                         /\ 100 <= len t <= CHUNK_SIZE_CHARS /\ trimmed t)
            (trace (run h (index_document file_path) w)))
  /\ (forall query num_results,
        Forall (fun e => forall r, embed_request e = Some r ->
                  r = (EMBEDDING_MODEL, query, TASK_TYPE_QUERY, EMBEDDING_DIMENSION))
               (trace (run h (search_knowledge_base query num_results) w))
        /\ (length (filter (fun e => match embed_request e with Some _ => true | None => false end)
                      (trace (run h (search_knowledge_base query num_results) w))) <= 1)%nat)
  /\ Forall (fun e => embed_request e = None) (trace (run h get_indexed_documents w))
  /\ TASK_TYPE_QUERY <> TASK_TYPE_DOCUMENT.
Proof.
  split; [| split; [| split]].
  - intros fp.
    destruct (index_document_calls h fp w) as (pre & emb & sto & -> & Hpre & Hemb & Hsto).
    apply Forall_app. split; [| apply Forall_app; split].
    + eapply Forall_impl; [| exact Hpre]. cbn. intros e [He _] r Hr. congruence.
    + eapply Forall_impl; [| exact Hemb]. cbn. intros e (_ & t & He & Ht) r Hr.
      exists t. split; [congruence | exact Ht].
    + eapply Forall_impl; [| exact Hsto]. cbn. intros e He r Hr.
      rewrite (store_call_not_embed e He) in Hr. discriminate.
  - intros q k. unfold search_knowledge_base.
    next_call h. destruct r as [e | [|]]; finish_run;
      [split; [repeat constructor; cbn; congruence | cbn; lia] | |
       split; [repeat constructor; cbn; congruence | cbn; lia]].
    next_call h. destruct r as [e | v]; finish_run;
      [split; [repeat constructor; cbn; congruence | cbn; lia] |].
    next_call h. destruct r as [e | []]; finish_run;
      [split; [repeat constructor; cbn; congruence | cbn; lia] |].
    next_call h. destruct r as [e | []]; finish_run;
      [split; [repeat constructor; cbn; congruence | cbn; lia] |].
    next_call h. destruct r as [e | found]; finish_run;
      [split; [repeat constructor; cbn; congruence | cbn; lia] |].
    destruct found; finish_run;
      (split; [repeat constructor; cbn; congruence | cbn; lia]).
  - unfold get_indexed_documents.
    next_call h. destruct r as [e | [|]]; finish_run; [repeat constructor | | repeat constructor].
    next_call h. destruct r as [e | []]; finish_run; [repeat constructor |].
    next_call h. destruct r as [e | []]; finish_run; [repeat constructor |].
    next_call h. destruct r as [e | all_data]; finish_run; repeat constructor.
  - vm_compute. discriminate.
Qed.

Lemma exec_untouched {W A K : Type} (h : handler W) (kb : W -> K)
    (touches : forall X, call X -> bool) (p : prog A) :
  (forall X (c : call X) w, touches X c = false -> kb (fst (h X c w)) = kb w) ->
  forall w,
    Forall (fun e => touches _ (entry_call e) = false) (trace (exec h p w [])) ->
    kb (final (exec h p w [])) = kb w.
Proof.
  intros Hframe.
  induction p as [a | e | X c k IH]; intros w; cbn; try reflexivity.
  destruct (h X c w) as [w' r] eqn:Hh. rewrite exec_log. cbn.
  intros Hno. apply Forall_cons_iff in Hno as [Hc Hrest]. cbn in Hc.
  rewrite (IH r w' Hrest).
  specialize (Hframe X c w Hc). now rewrite Hh in Hframe.
Qed.

Lemma world_handler_writes_only (X : Type) (c : call X) (w : World) :
  is_store_write c = false -> fst (world_handler X c w) = w.
Proof.
  destruct c; cbn; intros Hc; try discriminate; try reflexivity;
    destruct (store w); try reflexivity; destruct (is_documents _ _); reflexivity.
Qed.

Lemma search_never_writes {W : Type} (h : handler W) (q : str) (k : Z) (w : W) :
  no_store_write (trace (run h (search_knowledge_base q k) w)).
Proof.
  unfold search_knowledge_base, no_store_write.
  next_call h. destruct r as [e | [|]]; finish_run;
    [repeat constructor | | repeat constructor].
  next_call h. destruct r as [e | v]; finish_run; [repeat constructor |].
  next_call h. destruct r as [e | []]; finish_run; [repeat constructor |].
  next_call h. destruct r as [e | []]; finish_run; [repeat constructor |].
  next_call h. destruct r as [e | found]; finish_run; [repeat constructor |].
  destruct found; finish_run; repeat constructor.
Qed.

Lemma summary_never_writes {W : Type} (h : handler W) (w : W) :
  no_store_write (trace (run h get_indexed_documents w)).
Proof.
  unfold get_indexed_documents, no_store_write.
  next_call h. destruct r as [e | [|]]; finish_run; [repeat constructor | | repeat constructor].
  next_call h. destruct r as [e | []]; finish_run; [repeat constructor |].
  next_call h. destruct r as [e | []]; finish_run; [repeat constructor |].
  next_call h. destruct r as [e | all_data]; finish_run; repeat constructor.
Qed.

(** X10: [search_knowledge_base] and [get_indexed_documents] are read-only:
    whatever the environment answers, neither calls [table.add] or
    [create_table], so anything that only those two calls can change is
    left as it was. *)
Theorem read_tools_never_write {W K : Type} (h : handler W) (kb : W -> K) (w : W)
    (query : str) (num_results : Z) :
  no_store_write (trace (run h (search_knowledge_base query num_results) w))
  /\ no_store_write (trace (run h get_indexed_documents w))
  /\ ((forall X (c : call X) w', is_store_write c = false -> kb (fst (h X c w')) = kb w') ->
      kb (final (run h (search_knowledge_base query num_results) w)) = kb w
      /\ kb (final (run h get_indexed_documents w)) = kb w).
Proof.
  split; [apply search_never_writes |]. split; [apply summary_never_writes |].
  intros Hframe. split.
  - apply (exec_untouched h kb (@is_store_write)); [exact Hframe |].
    apply search_never_writes.
  - apply (exec_untouched h kb (@is_store_write)); [exact Hframe |].
    apply summary_never_writes.
Qed.

Lemma read_tools_never_write_witness :
  final (run world_handler (search_knowledge_base (lit "budget") 5)
           (set_store sample_world (Table [sample_row])))
    = set_store sample_world (Table [sample_row])
  /\ final (run world_handler get_indexed_documents
              (set_store sample_world (Table [sample_row])))
     = set_store sample_world (Table [sample_row]).
Proof.
  apply (proj2 (proj2 (read_tools_never_write world_handler (fun w => w)
                         (set_store sample_world (Table [sample_row]))
                         (lit "budget") 5))).
  exact world_handler_writes_only.
Defined.

Lemma not_store_not_add (e : Entry) :
  is_store_call (entry_call e) = false -> add_raise e = None.
Proof.
  destruct e as [X c r]. cbn. destruct c; cbn; congruence.
Qed.

Lemma store_records_fallback {W : Type} (h : handler W) (data : list Row) (w : W)
    (log : list Entry) :
  exists t,
    trace (exec h (store_records data) w log) = log ++ t
    /\ forall d e, Exists (fun y => add_raise y = Some (d, e)) t ->
         exists pre x r,
           t = pre ++ [x] /\ create_outcome x = Some (d, r)
           /\ result (exec h (store_records data) w log) = r.
Proof.
  unfold store_records.
  next_call h. destruct r as [e | []]; finish_run;
    [eexists [_]; split; [reflexivity | intros d e' H; scan_trace H] |].
  next_call h. destruct r as [e | []]; finish_run.
  - next_call h. destruct r as [e' | []]; finish_run;
      rewrite <- !app_assoc; eexists; (split; [reflexivity |]);
      intros d e0 H; cbn [app] in H; scan_trace H.
  - next_call h. destruct r as [e | []]; finish_run.
    + next_call h. destruct r as [e' | []]; finish_run;
        rewrite <- !app_assoc; eexists; (split; [reflexivity |]);
        intros d e0 H; cbn [app] in H; scan_trace H; injection H as <- <-;
        eexists [_; _; _], _, _; repeat split.
    + rewrite <- !app_assoc; eexists; (split; [reflexivity |]).
      intros d e0 H; cbn [app] in H; scan_trace H.
Qed.

(** X11: a failing [table.add] is never what [index_document] reports.
    When [table.add] raises, the tool goes on to [create_table] with the same
    rows, as its last call: if that succeeds the tool reports success, and if
    it raises the tool reports that second exception. *)
Theorem add_failure_is_masked {W : Type} (h : handler W) (file_path : str) (w : W)
    (data : list Row) (e_add : PyException) :
  Exists (fun y => add_raise y = Some (data, e_add))
         (trace (run h (index_document file_path) w)) ->
  exists pre x r,
    trace (run h (index_document file_path) w) = pre ++ [x]
    /\ create_outcome x = Some (data, r)
    /\ match r with
       | inr _ => exists n, result (run h (index_document file_path) w)
                            = inr (msg_indexed file_path n)
       | inl e' => result (run h (index_document file_path) w) = inr (msg_index_error e')
       end.
Proof.
  unfold index_document.
  next_call h. destruct r as [e | [|]]; finish_run;
    [intros H; scan_trace H | | intros H; scan_trace H].
  next_call h. destruct r as [e | abs_path]; finish_run; [intros H; scan_trace H |].
  next_call h. destruct r as [e | text_content]; finish_run; [intros H; scan_trace H |].
  destruct (no_meaningful_text text_content) eqn:Htext; finish_run;
    [intros H; scan_trace H |].
  next_call h. destruct r as [e | src]; finish_run; [intros H; scan_trace H |].
  set (t := match text_content with Some t => t | None => [] end).
  destruct (chunk_text_total DocumentChunker_default t src) as [|c cs] eqn:Hchunks;
    finish_run; [intros H; scan_trace H |].
  rewrite !exec_try_except, !exec_bind. unfold generate_batch_embeddings.
  rewrite exec_batch_loop.
  match goal with
  | |- context [exec h (embed_each ?g ?tt ?txts) ?w' ?log] =>
      destruct (exec_embed_each h g tt txts w' log) as (tr & Htr & Hns & _);
      destruct (exec h (embed_each g tt txts) w' log) as [fw ftr res] eqn:Hb
  end.
  cbn [result trace final] in Htr. subst ftr.
  assert (Hnone : ~ Exists (fun y => add_raise y = Some (data, e_add)) tr).
  { intros H. apply Exists_exists in H as (y & Hy & Hadd).
    rewrite Forall_forall in Hns. rewrite (not_store_not_add y (Hns y Hy)) in Hadd.
    discriminate. }
  unfold map_result, and_then, or_else. cbn [result trace final].
  destruct res as [e | vs]; cbn [result trace final]; finish_run.
  - intros H. scan_trace H. contradiction.
  - rewrite exec_bind. unfold and_then.
    match goal with
    | |- context [exec h (store_records ?d) ?w' ?log] =>
        destruct (store_records_fallback h d w' log) as (ts & Hts & Hfb);
        destruct (exec h (store_records d) w' log) as [sw str res]
    end.
    cbn [result trace final] in Hts, Hfb. subst str.
    assert (Hstep : Exists (fun y => add_raise y = Some (data, e_add)) ts ->
              exists pre x r, ts = pre ++ [x] /\ create_outcome x = Some (data, r) /\ res = r)
      by apply Hfb.
    destruct res as [e | []]; cbn [result trace final exec]; cbn [app];
      intros H; scan_trace H; apply Exists_app in H as [H | H]; try contradiction;
      destruct (Hstep H) as (pre & x & r & -> & Hx & <-);
      eexists (_ :: _ :: _ :: _ :: tr ++ pre), x, _;
      (split; [cbn [app]; now rewrite <- app_assoc |]);
      (split; [exact Hx |]); [reflexivity | eexists; reflexivity].
Qed.

Lemma add_failure_is_masked_witness :
  exists pre x r,
    trace (run add_refusing_handler (index_document (lit "notes.txt"))
             (set_store sample_world (Table []))) = pre ++ [x]
    /\ create_outcome x = Some ([sample_row], r)
    /\ match r with
       | inr _ =>
           exists n,
             result (run add_refusing_handler (index_document (lit "notes.txt"))
                       (set_store sample_world (Table [])))
             = inr (msg_indexed (lit "notes.txt") n)
       | inl e' =>
           result (run add_refusing_handler (index_document (lit "notes.txt"))
                     (set_store sample_world (Table [])))
           = inr (msg_index_error e')
       end.
Proof.
  apply (add_failure_is_masked add_refusing_handler (lit "notes.txt")
           (set_store sample_world (Table [])) [sample_row]
           (Exception (lit "schema mismatch"))).
  vm_compute.
  repeat first [apply Exists_cons_hd; reflexivity | apply Exists_cons_tl].
Defined.

Example add_failure_report :
  result (run add_refusing_handler (index_document (lit "notes.txt"))
            (set_store sample_world (Table [])))
  = inr (lit "Error indexing document: Table 'documents' already exists").
Proof. vm_compute. reflexivity. Qed.

(** ** More about ingestion in the reference environment *)

Lemma chunk_text_total_windows (self : DocumentChunker) (txt src : str) :
  overlap self < chunk_size self ->
  exists m,
    chunk_text_total self txt src = windows self txt src m
    /\ forall j, (j < m)%nat -> emits self txt j = true.
Proof.
  intros Hpre.
  destruct (chunk_text_enough_fuel self txt src Hpre) as (m & _ & _ & Hall & Hrun).
  exists m. split; [| exact Hall].
  unfold chunk_text_total. now rewrite Hrun by lia.
Qed.

Lemma nth_error_combine_inv {A B : Type} (l : list A) (l' : list B) :
  forall i a b, nth_error (combine l l') i = Some (a, b) ->
    nth_error l i = Some a /\ nth_error l' i = Some b.
Proof.
  revert l'. induction l as [|x l IH]; intros [|y l'] [|i] a b H; cbn in *;
    try discriminate.
  - injection H as <- <-. now split.
  - now apply IH.
Qed.

Lemma embeddings_via_nth (f : str -> PyException + Vector) (texts : list str) :
  forall vs, embeddings_via f texts = inr vs ->
    forall i t v, nth_error texts i = Some t -> nth_error vs i = Some v -> f t = inr v.
Proof.
  induction texts as [|t0 rest IH]; cbn; intros vs H i t v Ht Hv.
  - destruct i; discriminate.
  - destruct (f t0) as [e | v0] eqn:Hf; [discriminate |].
    destruct (embeddings_via f rest) as [e | vs']; [discriminate |].
    injection H as <-. destruct i as [|i]; cbn in *.
    + congruence.
    + now apply (IH vs' eq_refl i).
Qed.

(** What each written row holds. *)
Lemma ingest_rows_content (w : World) (file_path : str) (data : list Row) :
  ingest_rows w file_path = Some data ->
  exists t,
    md_text w (fs_absolute w file_path) = inr (Some t)
    /\ forall i r, nth_error data i = Some r ->
         row_chunk_index r = Some (Z.of_nat i)
         /\ row_char_start r = 1800 * Z.of_nat i
         /\ row_char_end r = row_char_start r + 2000
         /\ row_source r = fs_absolute w file_path
         /\ row_text r = PyStr.strip (PyStr.slice t (row_char_start r) (row_char_end r))
         /\ 100 <= len (row_text r) <= 2000
         /\ trimmed (row_text r)
         /\ embedding_of w EMBEDDING_MODEL (row_text r) TASK_TYPE_DOCUMENT EMBEDDING_DIMENSION
            = inr (row_vector r).
Proof.
  unfold ingest_rows.
  destruct (world_path_exists w file_path); [| discriminate].
  destruct (md_text w (fs_absolute w file_path)) as [e | tc]; [discriminate |].
  destruct (no_meaningful_text tc) eqn:Htc; [discriminate |]. cbv zeta.
  destruct tc as [t |]; [| discriminate].
  destruct (chunk_text_total_windows DocumentChunker_default t (fs_absolute w file_path))
    as (m & Hwin & Hall); [reflexivity |].
  pose proof (default_chunk_texts t (fs_absolute w file_path)) as Htexts.
  destruct (chunk_text_total _ _ _) as [|c cs] eqn:Hchunks; [discriminate |].
  destruct (embeddings_via _ _) as [e | vs] eqn:Hvs; [discriminate |].
  intros [= <-]. exists t. split; [reflexivity |].
  intros i r Hr. rewrite nth_error_map in Hr.
  change (nth_error _ i) with (nth_error (combine (c :: cs) vs) i) in Hr.
  destruct (nth_error (combine (c :: cs) vs) i) as [[ch v] |] eqn:Hcv;
    cbn [option_map] in Hr; [| discriminate].
  injection Hr as <-. apply nth_error_combine_inv in Hcv as [Hch Hv].
  assert (Hin : In ch (c :: cs)) by (eapply nth_error_In; exact Hch).
  rewrite Forall_forall in Htexts. destruct (Htexts ch Hin) as [Hlen Htrim].
  assert (Hemb : embedding_of w EMBEDDING_MODEL (text ch) TASK_TYPE_DOCUMENT EMBEDDING_DIMENSION
                 = inr v).
  { apply (embeddings_via_nth _ _ vs Hvs i (text ch) v); [| exact Hv].
    rewrite nth_error_map, Hch. reflexivity. }
  rewrite Hwin in Hch. apply windows_nth_inv in Hch as [_ ->].
  cbn [db_record window row_text row_vector row_source row_chunk_index row_char_start
       row_char_end text source chunk_index char_start char_end] in *.
  change (stride DocumentChunker_default) with 1800 in *.
  change (chunk_size DocumentChunker_default) with 2000 in *.
  change CHUNK_SIZE_CHARS with 2000 in Hlen.
  replace (Z.of_nat i * 1800) with (1800 * Z.of_nat i) in * by lia.
  do 5 (split; [reflexivity |]). split; [exact Hlen |]. split; [exact Htrim | exact Hemb].
Qed.

Lemma world_index_document_count (w : World) (file_path : str) (data : list Row) :
  ingest_rows w file_path = Some data ->
  result (run world_handler (index_document file_path) w)
  = inr (msg_indexed file_path (Z.of_nat (length data))).
Proof.
  unfold ingest_rows, index_document, run.
  cbn [exec try_except bind perform world_handler].
  destruct (world_path_exists w file_path); [| discriminate]. cbn [negb].
  cbn [exec try_except bind perform world_handler].
  destruct (md_text w (fs_absolute w file_path)) as [e | text_content];
    cbn [exec try_except bind perform world_handler]; [discriminate |].
  destruct (no_meaningful_text text_content);
    cbn [exec try_except bind perform world_handler]; [discriminate |].
  destruct (chunk_text_total DocumentChunker_default _ (fs_absolute w file_path))
    as [|c cs] eqn:Hchunks; [discriminate |].
  rewrite exec_try_except, exec_bind. unfold generate_batch_embeddings.
  rewrite exec_batch_loop. unfold map_result, and_then, or_else.
  cbn [result final trace].
  match goal with
  | |- context [exec world_handler (embed_each ?g ?tt ?txts) w ?log] =>
      destruct (world_embed_each w txts log) as [Hf Hr]
  end.
  rewrite Hr, Hf.
  destruct (embeddings_via _ (map text (c :: cs))) as [e | vs] eqn:Hvs;
    cbn [result final trace exec]; [discriminate |].
  intros [= <-].
  rewrite exec_bind. unfold and_then.
  match goal with
  | |- context [exec world_handler (store_records ?d) w ?log] =>
      destruct (world_store_records w d log) as [Hsf Hsr]
  end.
  rewrite Hsr. cbn [exec result final]. do 3 f_equal. symmetry.
  apply embeddings_via_length in Hvs. rewrite length_map in Hvs.
  change (length (map db_record (combine (c :: cs) vs)) = length (c :: cs)).
  rewrite length_map, length_combine. lia.
Qed.

Lemma msg_indexed_not_error (file_path : str) (n : Z) :
  is_error_message (msg_indexed file_path n) = false.
Proof. reflexivity. Qed.

(** X12: in the reference environment, when [index_document] reports
    success the rows it appended are the chunks of the converted text, one
    row each and in order: row i has chunk_index i, char_start 1800 i,
    char_end 1800 i + 2000, the absolute path as source, as text the trimmed
    window of the converted text at those offsets (100 to 2000 characters),
    and as vector the RETRIEVAL_DOCUMENT embedding of exactly that text; the
    count in the message is the number of rows appended. *)
Theorem ingested_rows_describe_chunks (w : World) (file_path : str) (n : Z) :
  result (run world_handler (index_document file_path) w) = inr (msg_indexed file_path n) ->
  exists data t,
    store (final (run world_handler (index_document file_path) w))
      = Table (stored_rows w ++ data)
    /\ data <> []
    /\ result (run world_handler (index_document file_path) w)
       = inr (msg_indexed file_path (Z.of_nat (length data)))
    /\ md_text w (fs_absolute w file_path) = inr (Some t)
    /\ forall i r, nth_error data i = Some r ->
         row_chunk_index r = Some (Z.of_nat i)
         /\ row_char_start r = 1800 * Z.of_nat i
         /\ row_char_end r = row_char_start r + 2000
         /\ row_source r = fs_absolute w file_path
         /\ row_text r = PyStr.strip (PyStr.slice t (row_char_start r) (row_char_end r))
         /\ 100 <= len (row_text r) <= 2000
         /\ trimmed (row_text r)
         /\ embedding_of w EMBEDDING_MODEL (row_text r) TASK_TYPE_DOCUMENT EMBEDDING_DIMENSION
            = inr (row_vector r).
Proof.
  intros Hok.
  pose proof (world_index_document w file_path) as H1.
  destruct (ingest_rows w file_path) as [data |] eqn:Hrows.
  2: { destruct H1 as (_ & s & Hs & Herr). rewrite Hok in Hs.
       injection Hs as <-. discriminate Herr. }
  destruct H1 as [Hfinal _].
  destruct (ingest_rows_content w file_path data Hrows) as (t & Ht & Hcontent).
  destruct (ingest_rows_shape w file_path data Hrows) as (_ & Hne & _).
  exists data, t. rewrite Hfinal. split; [reflexivity |]. split; [exact Hne |].
  split; [now apply world_index_document_count |]. split; [exact Ht | exact Hcontent].
Qed.

Lemma ingested_rows_describe_chunks_witness :
  exists data t,
    store (final (run world_handler (index_document (lit "notes.txt")) sample_world))
      = Table (stored_rows sample_world ++ data)
    /\ data <> []
    /\ result (run world_handler (index_document (lit "notes.txt")) sample_world)
       = inr (msg_indexed (lit "notes.txt") (Z.of_nat (length data)))
    /\ md_text sample_world (fs_absolute sample_world (lit "notes.txt")) = inr (Some t)
    /\ forall i r, nth_error data i = Some r ->
         row_chunk_index r = Some (Z.of_nat i)
         /\ row_char_start r = 1800 * Z.of_nat i
         /\ row_char_end r = row_char_start r + 2000
         /\ row_source r = fs_absolute sample_world (lit "notes.txt")
         /\ row_text r = PyStr.strip (PyStr.slice t (row_char_start r) (row_char_end r))
         /\ 100 <= len (row_text r) <= 2000
         /\ trimmed (row_text r)
         /\ embedding_of sample_world EMBEDDING_MODEL (row_text r) TASK_TYPE_DOCUMENT
              EMBEDDING_DIMENSION
            = inr (row_vector r).
Proof.
  apply (ingested_rows_describe_chunks sample_world (lit "notes.txt") 1).
  vm_compute. reflexivity.
Defined.

(** X13: in the reference environment [index_document] is all or nothing
    and append-only: either it reports an error and leaves the environment
    exactly as it was, or it reports success and the store holds the rows it
    held before, unchanged and in the same order, followed by at least one
    new row. *)
Theorem index_document_appends_or_nothing (w : World) (file_path : str) :
  (final (run world_handler (index_document file_path) w) = w
   /\ exists s, result (run world_handler (index_document file_path) w) = inr s
                /\ is_error_message s = true)
  \/ (exists data,
        data <> []
        /\ final (run world_handler (index_document file_path) w)
           = set_store w (Table (stored_rows w ++ data))
        /\ exists s, result (run world_handler (index_document file_path) w) = inr s
                     /\ is_error_message s = false).
Proof.
  pose proof (world_index_document w file_path) as H.
  destruct (ingest_rows w file_path) as [data |] eqn:Hrows.
  - right. destruct H as (Hfinal & n & Hres).
    destruct (ingest_rows_shape w file_path data Hrows) as (_ & Hne & _).
    exists data. split; [exact Hne |]. split; [exact Hfinal |].
    exists (msg_indexed file_path n). split; [exact Hres | apply msg_indexed_not_error].
  - left. exact H.
Qed.

(** ** More about [get_indexed_documents] *)

Lemma unique_in (sources seen : list str) (s : str) :
  In s (unique seen sources) -> In s sources /\ existsb (PyStr.eqb s) seen = false.
Proof.
  revert seen. induction sources as [|s0 rest IH]; intros seen Hin; [contradiction |].
  cbn in Hin. destruct (existsb (PyStr.eqb s0) seen) eqn:Hseen.
  - destruct (IH seen Hin) as [Hr Hs]. split; [now right | exact Hs].
  - destruct Hin as [<- | Hin]; [split; [now left | exact Hseen] |].
    destruct (IH (s0 :: seen) Hin) as [Hr Hs]. split; [now right |].
    cbn in Hs. now apply orb_false_iff in Hs as [_ Hs].
Qed.

Lemma unique_NoDup (sources seen : list str) : NoDup (unique seen sources).
Proof.
  revert seen. induction sources as [|s0 rest IH]; intros seen; [constructor |].
  cbn. destruct (existsb (PyStr.eqb s0) seen); [apply IH |].
  constructor; [| apply IH].
  intros Hin. apply unique_in in Hin as [_ Hs]. cbn in Hs.
  replace (PyStr.eqb s0 s0) with true in Hs by (symmetry; now apply eqb_eq).
  discriminate.
Qed.

Lemma filter_either_length {A : Type} (p q : A -> bool) (l : list A) :
  (forall a, p a = true -> q a = false) ->
  length (filter (fun a => p a || q a) l) = (length (filter p l) + length (filter q l))%nat.
Proof.
  intros Hdis. induction l as [|a l IH]; [reflexivity |].
  cbn. destruct (p a) eqn:Hp; cbn.
  - rewrite (Hdis a Hp). cbn. now rewrite IH.
  - destruct (q a); cbn; rewrite IH; lia.
Qed.

Lemma filter_all {A : Type} (p : A -> bool) (l : list A) :
  (forall a, In a l -> p a = true) -> filter p l = l.
Proof.
  induction l as [|a l IH]; intros Hall; [reflexivity |].
  cbn. rewrite (Hall a (or_introl eq_refl)). f_equal. apply IH.
  intros b Hb. apply Hall. now right.
Qed.

Lemma doc_chunks_total (rows : list Row) (sources : list str) :
  NoDup sources ->
  total (map (doc_chunks rows) sources)
  = Z.of_nat (length (filter (fun r => existsb (PyStr.eqb (row_source r)) sources) rows)).
Proof.
  induction 1 as [|s ss Hnot Hnd IH].
  - cbn. induction rows as [|r rest IHr]; [reflexivity | exact IHr].
  - change (total (map (doc_chunks rows) (s :: ss)))
      with (doc_chunks rows s + total (map (doc_chunks rows) ss)).
    rewrite IH. unfold doc_chunks. rewrite <- Nat2Z.inj_add. f_equal.
    cbn [existsb]. symmetry. apply filter_either_length.
    intros r Hr. apply eqb_eq in Hr. subst s.
    destruct (existsb (PyStr.eqb (row_source r)) ss) eqn:Hex; [| reflexivity].
    apply existsb_exists in Hex as (x & Hx & Heq). apply eqb_eq in Heq. now subst x.
Qed.

Lemma unique_ext (sources seen seen' : list str) :
  (forall x, existsb (PyStr.eqb x) seen = existsb (PyStr.eqb x) seen') ->
  unique seen sources = unique seen' sources.
Proof.
  revert seen seen'. induction sources as [|s0 rest IH]; intros seen seen' Hsame;
    [reflexivity |].
  cbn. rewrite <- (Hsame s0). destruct (existsb (PyStr.eqb s0) seen).
  - now apply IH.
  - f_equal. apply IH. intros x. cbn. now rewrite Hsame.
Qed.

(** Scanning a list in two parts: the second part is scanned with the
    first part counted as seen. *)
Lemma unique_app (a b seen : list str) :
  unique seen (a ++ b) = unique seen a ++ unique (a ++ seen) b.
Proof.
  revert seen. induction a as [|x a IH]; intros seen; [reflexivity |].
  cbn [app unique]. destruct (existsb (PyStr.eqb x) seen) eqn:Hx.
  - rewrite IH. f_equal. apply unique_ext. intros y. cbn [existsb].
    destruct (PyStr.eqb y x) eqn:Hy; [| reflexivity].
    apply eqb_eq in Hy. subst y. cbn. rewrite existsb_app, Hx. apply orb_true_r.
  - rewrite IH. cbn [app]. do 2 f_equal. apply unique_ext. intros y.
    cbn [existsb]. rewrite !existsb_app. cbn [existsb].
    destruct (PyStr.eqb y x), (existsb (PyStr.eqb y) a), (existsb (PyStr.eqb y) seen);
      reflexivity.
Qed.

(** X14: the inventory adds up.  The documents listed are the distinct
    sources of the stored rows, each listed once, in order of first
    appearance: the source of a row that no earlier row shares is listed
    right after the sources of the rows before it.  Every listed document
    has at least one chunk, and the per-document chunk counts sum to the
    total number of chunks. *)
Theorem summary_counts_add_up (all_data : list Row) :
  let sources := unique [] (map row_source all_data) in
  summary_lines all_data
  = [ lit "Knowledge Base Statistics:";
      lit "- Total chunks: " ++ PyStr.of_int (Z.of_nat (length all_data));
      lit "- Indexed documents: " ++ PyStr.of_int (Z.of_nat (length sources));
      newline ++ lit "Documents:" ]
    ++ map (source_line all_data) sources
  /\ NoDup sources
  /\ (forall s, In s sources <-> exists r, In r all_data /\ row_source r = s)
  /\ (forall s, In s sources -> 1 <= doc_chunks all_data s)
  /\ total (map (doc_chunks all_data) sources) = Z.of_nat (length all_data)
  /\ (forall r, hd_error all_data = Some r -> hd_error sources = Some (row_source r))
  /\ (forall earlier r later,
        all_data = earlier ++ r :: later ->
        (forall r', In r' earlier -> row_source r' <> row_source r) ->
        exists before after,
          sources = before ++ row_source r :: after
          /\ (forall s, In s before <-> exists r', In r' earlier /\ row_source r' = s)
          /\ (forall s, In s after -> exists r', In r' later /\ row_source r' = s)).
Proof.
  cbv zeta. split; [reflexivity |]. split; [apply unique_NoDup |].
  assert (Hiff : forall rows s, In s (unique [] (map row_source rows))
                                <-> exists r, In r rows /\ row_source r = s).
  { intros rows s. split.
    - intros Hin. apply unique_in in Hin as [Hin _].
      apply in_map_iff in Hin as (r & Hr & Hin). now exists r.
    - intros (r & Hin & <-). apply unique_keeps; [now apply in_map | reflexivity]. }
  split; [apply Hiff |]. split; [| split; [| split]].
  - intros s Hs. apply Hiff in Hs as (r & Hin & <-). unfold doc_chunks.
    assert (Hf : In r (filter (fun r0 => PyStr.eqb (row_source r0) (row_source r)) all_data)).
    { apply filter_In. split; [exact Hin | now apply eqb_eq]. }
    destruct (filter _ all_data); [contradiction | cbn; lia].
  - rewrite doc_chunks_total by apply unique_NoDup. do 2 f_equal.
    apply filter_all. intros r Hr. apply existsb_exists.
    exists (row_source r). split; [| now apply eqb_eq].
    apply Hiff. now exists r.
  - intros r Hr. destruct all_data as [|r0 rest]; [discriminate |].
    injection Hr as ->. reflexivity.
  - intros earlier r later -> Hnew.
    rewrite map_app, unique_app. cbn [map unique].
    replace (existsb (PyStr.eqb (row_source r)) (map row_source earlier ++ [])) with false.
    + exists (unique [] (map row_source earlier)).
      eexists. split; [reflexivity |]. split; [apply Hiff |].
      intros s Hs. apply unique_in in Hs as [Hs _].
      apply in_map_iff in Hs as (r' & Hr' & Hin). now exists r'.
    + symmetry. destruct (existsb _ _) eqn:Hex; [| reflexivity]. exfalso.
      apply existsb_exists in Hex as (x & Hx & Heq). apply eqb_eq in Heq.
      rewrite app_nil_r in Hx. apply in_map_iff in Hx as (r' & Hr' & Hin).
      apply (Hnew r' Hin). congruence.
Qed.

Lemma summary_counts_add_up_witness :
  exists before after,
    unique [] (map row_source [sample_row; other_row; sample_row])
    = before ++ row_source other_row :: after
    /\ (forall s, In s before <-> exists r', In r' [sample_row] /\ row_source r' = s)
    /\ (forall s, In s after -> exists r', In r' [sample_row] /\ row_source r' = s).
Proof.
  pose proof (summary_counts_add_up [sample_row; other_row; sample_row]) as H.
  cbv zeta in H. destruct H as (_ & _ & _ & _ & _ & _ & Hord).
  apply (Hord [sample_row] other_row [sample_row]); [reflexivity |].
  intros r' [<- | []]. vm_compute. discriminate.
Defined.

Section SummaryFacts.

Context {W : Type} (h : handler W).

Lemma summary_not_error (all_data : list Row) :
  is_error_message (PyStr.join newline (summary_lines all_data)) = false.
Proof.
  unfold summary_lines. cbn [app PyStr.join]. reflexivity.
Qed.

(** X15: once [get_indexed_documents] has got as far as the table it
    never reports an error: if opening or reading the table raises, the
    answer is the "knowledge base is empty" message, the same as for a
    missing directory, and the exception is dropped. *)
Theorem unreadable_table_reads_as_empty (w : W) :
  (Exists (fun e => read_refused e = true) (trace (run h get_indexed_documents w)) ->
   result (run h get_indexed_documents w) = inr msg_kb_empty)
  /\ (Exists (fun e => is_table_read e = true) (trace (run h get_indexed_documents w)) ->
      exists s, result (run h get_indexed_documents w) = inr s
                /\ is_error_message s = false).
Proof.
  unfold get_indexed_documents.
  next_call h. destruct r as [e | [|]]; finish_run;
    [split; intros H; scan_trace H | | split; intros H; scan_trace H].
  next_call h. destruct r as [e | []]; finish_run; [split; intros H; scan_trace H |].
  next_call h. destruct r as [e | []]; finish_run;
    [split; [reflexivity | intros _; eexists; split; reflexivity] |].
  next_call h. destruct r as [e | all_data]; finish_run.
  - split; [reflexivity | intros _; eexists; split; reflexivity].
  - split; [intros H; scan_trace H |].
    intros _. eexists. split; [reflexivity | apply summary_not_error].
Qed.

End SummaryFacts.

Lemma unreadable_table_reads_as_empty_witness :
  result (run world_handler get_indexed_documents (set_store sample_world NoTable))
  = inr msg_kb_empty.
Proof.
  apply (proj1 (unreadable_table_reads_as_empty world_handler
                  (set_store sample_world NoTable))).
  vm_compute.
  repeat first [apply Exists_cons_hd; reflexivity | apply Exists_cons_tl].
Defined.

(** ** Documents that cannot be indexed *)

(** X16: which of the two "nothing to index" reports an existing file
    gets, in the reference environment.  Converted text that is missing,
    empty or under 50 characters once trimmed gives "Could not extract
    meaningful text"; text of 50 or more trimmed characters whose first
    2000-character window trims to fewer than 100 gives "No chunks
    created", however much text follows that window.  Either way the
    environment is left as it was. *)
Theorem unindexable_document_reports (w : World) (file_path : str) :
  world_path_exists w file_path = true ->
  (forall text_content,
     md_text w (fs_absolute w file_path) = inr text_content ->
     match text_content with
     | None => True
     | Some t => len (PyStr.strip t) < 50
     end ->
     result (run world_handler (index_document file_path) w) = inr (msg_no_text file_path)
     /\ final (run world_handler (index_document file_path) w) = w)
  /\ (forall t,
        md_text w (fs_absolute w file_path) = inr (Some t) ->
        50 <= len (PyStr.strip t) ->
        len (PyStr.strip (PyStr.slice t 0 2000)) < 100 ->
        result (run world_handler (index_document file_path) w) = inr (msg_no_chunks file_path)
        /\ final (run world_handler (index_document file_path) w) = w).
Proof.
  intros Hfound. split.
  - intros tc Hconv Hshort. unfold index_document, run.
    cbn [exec try_except bind perform world_handler]. rewrite Hfound. cbn [negb].
    cbn [exec try_except bind perform world_handler]. rewrite Hconv.
    cbn [exec try_except bind perform world_handler].
    replace (no_meaningful_text tc) with true; [split; reflexivity |].
    symmetry. destruct tc as [[|c t] |]; try reflexivity.
    cbn [no_meaningful_text]. now apply Z.ltb_lt.
  - intros t Hconv Hlong Hfirst. unfold index_document, run.
    cbn [exec try_except bind perform world_handler]. rewrite Hfound. cbn [negb].
    cbn [exec try_except bind perform world_handler]. rewrite Hconv.
    cbn [exec try_except bind perform world_handler].
    replace (no_meaningful_text (Some t)) with false.
    + cbn [exec try_except bind perform world_handler].
      replace (chunk_text_total DocumentChunker_default t (fs_absolute w file_path))
        with (@nil Chunk); [split; reflexivity |].
      symmetry. unfold chunk_text_total.
      rewrite (chunk_text_stops_at DocumentChunker_default t (fs_absolute w file_path) 0);
        [reflexivity | | intros j Hj; lia | lia].
      unfold emits. apply andb_false_iff. right. apply negb_false_iff.
      now apply Z.ltb_lt.
    + symmetry. destruct t as [|c t]; [cbn in Hlong; lia |].
      cbn [no_meaningful_text]. now apply Z.ltb_ge.
Qed.

Lemma unindexable_document_reports_witness :
  result (run world_handler (index_document (lit "notes.txt")) blank_page_world)
    = inr (msg_no_chunks (lit "notes.txt"))
  /\ final (run world_handler (index_document (lit "notes.txt")) blank_page_world)
     = blank_page_world.
Proof.
  apply (proj2 (unindexable_document_reports blank_page_world (lit "notes.txt") eq_refl)
           (repeat 32%N 2000 ++ repeat 97%N 500)).
  - reflexivity.
  - vm_compute. discriminate.
  - vm_compute. reflexivity.
Defined.

(** ** What a scan can leave out *)

Lemma lstrip_dense (s : str) :
  (forall c, In c s -> PyStr.isspace c = false) -> PyStr.lstrip s = s.
Proof.
  intros Hd. destruct s as [|c s]; [reflexivity |].
  cbn. now rewrite (Hd c (or_introl eq_refl)).
Qed.

Lemma strip_dense (s : str) :
  (forall c, In c s -> PyStr.isspace c = false) -> PyStr.strip s = s.
Proof.
  intros Hd. unfold PyStr.strip, PyStr.rstrip.
  rewrite (lstrip_dense s Hd), lstrip_dense; [apply rev_involutive |].
  intros c Hc. apply Hd. now apply in_rev.
Qed.

Lemma slice_inside_length (s : str) (a w : Z) :
  0 <= a <= len s -> 0 <= w ->
  len (PyStr.slice s a (a + w)) = Z.min (len s) (a + w) - a.
Proof.
  intros Ha Hw. unfold PyStr.slice, PyStr.slice_bound, PyStr.len in *.
  rewrite length_firstn, length_skipn.
  destruct (Z.ltb_spec a 0), (Z.ltb_spec (a + w) 0); lia.
Qed.

(** X17: on a text without any whitespace, with 0 <= overlap < chunk_size
    and chunk_size at least 100, the call returns (within len(text) + 1 loop
    tests) a list that leaves out only a tail of fewer than 100 characters:
    every offset at least 100 characters before the end of the text lies in
    the window of some returned chunk. *)
Theorem dense_text_loses_under_100 (self : DocumentChunker) (txt src : str) :
  0 <= overlap self < chunk_size self ->
  100 <= chunk_size self ->
  (forall c, In c txt -> PyStr.isspace c = false) ->
  exists l,
    (forall fuel, (length txt < fuel)%nat -> chunk_text self txt src fuel = Some l)
    /\ (forall fuel l', chunk_text self txt src fuel = Some l' -> l' = l)
    /\ forall p, 0 <= p -> p + 100 <= len txt ->
         exists c, In c l /\ char_start c <= p < char_end c.
Proof.
  intros Hpre Hcs Hdense.
  assert (Hemit : forall k, Z.of_nat k * stride self < len txt ->
            emits self txt k
            = negb (Z.min (len txt) (Z.of_nat k * stride self + chunk_size self)
                    - Z.of_nat k * stride self <? 100)).
  { intros k Hk. unfold emits.
    assert (0 <= Z.of_nat k * stride self) by (unfold stride; nia).
    rewrite (proj2 (Z.ltb_lt _ _) Hk). cbn [andb].
    rewrite strip_dense by (intros c Hc; apply Hdense; now apply slice_incl in Hc).
    rewrite slice_inside_length by lia. reflexivity. }
  destruct (chunk_text_enough_fuel self txt src (proj2 Hpre)) as (m & _ & Em & Hall & Hrun).
  exists (windows self txt src m). split; [exact Hrun |]. split.
  { intros fuel l' Hl'.
    apply chunk_text_returns in Hl' as (m' & _ & -> & Em' & Hall').
    now rewrite (first_stop_unique self txt m' m). }
  intros p Hp0 Hp.
  assert (Hm : (0 < m)%nat).
  { destruct m as [|m']; [| lia]. exfalso.
    rewrite Hemit in Em by (cbn; lia). cbn [Z.of_nat] in Em.
    apply negb_false_iff, Z.ltb_lt in Em. lia. }
  apply windows_cover; [exact Hpre | exact Hm |]. split; [exact Hp0 |].
  assert (Hst : Z.of_nat m * stride self
                = Z.of_nat (m - 1) * stride self + stride self).
  { replace (Z.of_nat m) with (Z.of_nat (m - 1) + 1) by lia. lia. }
  destruct (Z.lt_ge_cases (Z.of_nat m * stride self) (len txt)) as [Hin | Hout].
  - rewrite Hemit in Em by exact Hin.
    apply negb_false_iff, Z.ltb_lt in Em. unfold stride in *. lia.
  - unfold stride in *. lia.
Qed.

Lemma dense_text_loses_under_100_witness :
  exists l c,
    chunk_text {| chunk_size := 150; overlap := 30 |} (repeat 97%N 300) [] 301 = Some l
    /\ In c l /\ char_start c <= 200 < char_end c.
Proof.
  destruct (dense_text_loses_under_100 {| chunk_size := 150; overlap := 30 |}
              (repeat 97%N 300) []) as (l & Hrun & _ & Hcover).
  - cbn. lia.
  - cbn. lia.
  - intros c Hc. apply repeat_spec in Hc. now subst c.
  - destruct (Hcover 200) as (c & Hc & Hp); [lia | vm_compute; discriminate |].
    exists l, c. split; [apply Hrun; rewrite repeat_length; lia |]. now split.
Defined.

(** ** What a search result shows *)

(** X18: the text shown for a search result is the first 500 characters of
    the stored text, and the "... (truncated)" line follows exactly when
    characters were left out. *)
Theorem displayed_text_truncation (i : Z) (r : Row) :
  exists header shown dropped,
    result_lines i r
    = header :: shown :: (if 500 <? len (row_text r) then [lit "... (truncated)"] else [])
    /\ row_text r = shown ++ dropped
    /\ len shown = Z.min 500 (len (row_text r))
    /\ (dropped <> [] <-> 500 < len (row_text r))
    /\ (dropped <> [] <-> In (lit "... (truncated)") (tl (tl (result_lines i r)))).
Proof.
  unfold result_lines. cbn [app tl].
  eexists _, (PyStr.slice (row_text r) 0 500), (skipn 500 (row_text r)).
  split; [reflexivity |].
  assert (Hslice : PyStr.slice (row_text r) 0 500 = firstn 500 (row_text r))
    by (now rewrite slice_prefix).
  rewrite Hslice. split; [now rewrite firstn_skipn |].
  assert (Hdrop : skipn 500 (row_text r) <> [] <-> 500 < len (row_text r)).
  { unfold PyStr.len. split.
    - intros Hne. destruct (Z.lt_ge_cases 500 (Z.of_nat (length (row_text r))));
        [assumption |]. exfalso. apply Hne. apply skipn_all2. lia.
    - intros Hlt Hnil. apply skipn_all_iff in Hnil. lia. }
  split; [| split; [exact Hdrop |]].
  - unfold PyStr.len. rewrite length_firstn. lia.
  - rewrite Hdrop. destruct (Z.ltb_spec 500 (len (row_text r))) as [Hlt | Hge].
    + split; [intros _; now left | intros _; exact Hlt].
    + split; [lia | intros []].
Qed.

(** ** Searching after ingesting *)

Lemma world_search (w : World) (rows : list Row) (q : str) (k : Z) :
  store w = Table rows ->
  result (run world_handler (search_knowledge_base q k) w)
  = inr (match embedding_of w EMBEDDING_MODEL q TASK_TYPE_QUERY EMBEDDING_DIMENSION with
         | inl e => msg_search_error e
         | inr v =>
             match nearest w rows v k with
             | [] => msg_no_match q
             | found => format_results q found
             end
         end).
Proof.
  intros Hs. unfold search_knowledge_base, run.
  cbn [exec try_except bind perform attempt generate_embedding world_handler
       model dimension EmbeddingGenerator_default].
  unfold world_path_exists. rewrite Hs.
  change (PyStr.eqb KNOWLEDGE_DB_PATH KNOWLEDGE_DB_PATH) with true.
  cbn [negb exec try_except bind perform attempt world_handler].
  destruct (embedding_of w EMBEDDING_MODEL q TASK_TYPE_QUERY EMBEDDING_DIMENSION) as [e | v];
    [reflexivity |].
  cbn [exec try_except bind perform attempt world_handler].
  rewrite Hs, is_documents_here.
  cbn [exec try_except bind perform attempt world_handler].
  rewrite Hs, is_documents_here.
  cbn [exec try_except bind perform attempt world_handler].
  destruct (nearest w rows v k); reflexivity.
Qed.

(** X19: in the reference environment, once [index_document] has reported
    success a search always reaches the table: it embeds the query in
    RETRIEVAL_QUERY mode and returns the listing of what the store ranks
    nearest among all stored rows (the earlier ones and the new ones), the
    "no relevant information" message when that is nothing, or the error of
    the embedding call; the "index first" messages no longer occur. *)
Theorem search_after_ingest (w : World) (file_path : str) (n : Z) (query : str)
    (num_results : Z) :
  result (run world_handler (index_document file_path) w) = inr (msg_indexed file_path n) ->
  exists data,
    data <> []
    /\ store (final (run world_handler (index_document file_path) w))
       = Table (stored_rows w ++ data)
    /\ result (run world_handler (search_knowledge_base query num_results)
                 (final (run world_handler (index_document file_path) w)))
       = inr (match embedding_of w EMBEDDING_MODEL query TASK_TYPE_QUERY
                      EMBEDDING_DIMENSION with
              | inl e => msg_search_error e
              | inr v =>
                  match nearest w (stored_rows w ++ data) v num_results with
                  | [] => msg_no_match query
                  | found => format_results query found
                  end
              end).
Proof.
  intros Hok.
  pose proof (world_index_document w file_path) as H1.
  destruct (ingest_rows w file_path) as [data |] eqn:Hrows.
  2: { destruct H1 as (_ & s & Hs & Herr). rewrite Hok in Hs.
       injection Hs as <-. discriminate Herr. }
  destruct H1 as [Hfinal _].
  destruct (ingest_rows_shape w file_path data Hrows) as (_ & Hne & _).
  exists data. split; [exact Hne |]. rewrite Hfinal. split; [reflexivity |].
  now rewrite (world_search _ (stored_rows w ++ data)).
Qed.

Lemma search_after_ingest_witness :
  exists data,
    data <> []
    /\ store (final (run world_handler (index_document (lit "notes.txt")) sample_world))
       = Table (stored_rows sample_world ++ data)
    /\ result (run world_handler (search_knowledge_base (lit "aaa") 5)
                 (final (run world_handler (index_document (lit "notes.txt")) sample_world)))
       = inr (match embedding_of sample_world EMBEDDING_MODEL (lit "aaa") TASK_TYPE_QUERY
                      EMBEDDING_DIMENSION with
              | inl e => msg_search_error e
              | inr v =>
                  match nearest sample_world (stored_rows sample_world ++ data) v 5 with
                  | [] => msg_no_match (lit "aaa")
                  | found => format_results (lit "aaa") found
                  end
              end).
Proof.
  apply (search_after_ingest sample_world (lit "notes.txt") 1 (lit "aaa") 5).
  vm_compute. reflexivity.
Defined.
